(** * Redshift: the colour-temperature core of [redshift.c]

    A shallow embedding of [calculate_temp], [adjust_temperature] and of the
    scheduling part of [main] (one-shot mode and the continuous loop), with
    the properties the specification states about them.

    Arithmetic.  The C source computes in [double] and [float].  Both are
    modelled bit-exactly as IEEE 754 binary64 and binary32 values with the
    Standard Library's [SpecFloat] (round to nearest, ties to even), every
    operation evaluated in the precision of its C type, as on x86-64 with
    SSE.  The implicit conversions of the C expressions (int to double, int
    to float, float to double, double to float, double to int) are written
    out where the C compiler inserts them.

    Surroundings.  The clock, the sun and the X11 backends are inputs: a
    [world] says what each call of [clock_gettime] stores and what the
    backend functions return, and [solar_elevation] is a parameter.  A run
    is the list of the calls it makes to [adjust_temperature], to [usleep]
    and to [exit].  The loop of continuous mode never ends by itself, so a
    run of it is observed for a number of turns ([fuel]).

    Output on stdout and stderr ([printf], [perror]) is not part of the
    model. *)

From Stdlib Require Import ZArith Bool List Lia QArith Qround.
From Stdlib Require Import Floats.SpecFloat.
From Stdlib Require Strings.Ascii Strings.String.
Import ListNotations.

Open Scope Z_scope.

(** * Definitions *)

(** ** IEEE 754 layer *)

Module IEEE.

(** C [double]: binary64. *)
Definition prec64 : Z := 53.
Definition emax64 : Z := 1024.

(** C [float]: binary32. *)
Definition prec32 : Z := 24.
Definition emax32 : Z := 128.

(** Both C types are carried by [spec_float]; the two names record which
    format a value is canonical in. *)
Definition double : Type := spec_float.
Definition float : Type := spec_float.

Definition dadd : double -> double -> double := SFadd prec64 emax64.
Definition dsub : double -> double -> double := SFsub prec64 emax64.
Definition dmul : double -> double -> double := SFmul prec64 emax64.
Definition ddiv : double -> double -> double := SFdiv prec64 emax64.
Definition fmul : float -> float -> float := SFmul prec32 emax32.

(** [x < y] of C: false as soon as one side is a NaN. *)
Definition lt (x y : spec_float) : bool := SFltb x y.

(** [x <= y] of C. *)
Definition le (x y : spec_float) : bool := SFleb x y.

(** Conversion of an integer to [double] and to [float] (correctly
    rounded; exact for every [int] in the case of [double]). *)
Definition double_of_Z (z : Z) : double :=
  binary_normalize prec64 emax64 z 0 false.

Definition float_of_Z (z : Z) : float :=
  binary_normalize prec32 emax32 z 0 false.

(** Conversion between the two formats: rounding from [double] to [float],
    exact (a change of representation) the other way. *)
Definition float_of_double (x : double) : float :=
  match x with
  | S754_finite s m e => binary_round prec32 emax32 s m e
  | _ => x
  end.

Definition double_of_float (x : float) : double :=
  match x with
  | S754_finite s m e => binary_round prec64 emax64 s m e
  | _ => x
  end.

(** The decimal constant [n/d] as a C compiler reads it: the nearest
    double. *)
Definition double_of_ratio (n d : Z) : double :=
  ddiv (double_of_Z n) (double_of_Z d).

Definition INT_MIN : Z := - 2 ^ 31.
Definition INT_MAX : Z := 2 ^ 31 - 1.

(** Integral part of a float, fraction discarded (rounding toward zero). *)
Definition truncate (x : spec_float) : option Z :=
  match x with
  | S754_zero _ => Some 0
  | S754_finite s m e => Some (cond_Zopp s (Z.shiftl (Zpos m) e))
  | _ => None
  end.

(** Conversion of a [double] to [int]: the fraction is discarded.  C leaves
    the conversion undefined for NaN, the infinities and values whose
    integral part is no [int]; there the model returns what the x86-64
    conversion instruction returns, [INT_MIN]. *)
Definition int_of_double (x : double) : Z :=
  match truncate x with
  | Some z => if (INT_MIN <=? z) && (z <=? INT_MAX) then z else INT_MIN
  | None => INT_MIN
  end.


End IEEE.
Import IEEE.

(** Checking a boolean property on every integer from [lo] up to, not
    including, [hi]. *)
Definition check_range (P : Z -> bool) (lo hi : Z) : bool :=
  forallb (fun i => P (lo + Z.of_nat i)) (seq 0 (Z.to_nat (hi - lo))).

(** ** Constants of the source *)

(** Bounds for parameters. *)
Definition MIN_TEMP : Z := 1000.
Definition MAX_TEMP : Z := 10000.

(** Default values for parameters. *)
Definition DEFAULT_DAY_TEMP : Z := 5500.
Definition DEFAULT_NIGHT_TEMP : Z := 3700.
Definition DEFAULT_GAMMA : float := float_of_Z 1.

(** Modelled from the spec: [SOLAR_CIVIL_TWILIGHT_ELEV] is defined in
    [solar.h], which is not among the sources; the specification names it the
    civil-twilight elevation and gives it the value [-6.0]. *)
Definition SOLAR_CIVIL_TWILIGHT_ELEV : double := double_of_Z (-6).

(** Angular elevation of the sun at which the color temperature transition
    period starts and ends (in degrees). *)
Definition TRANSITION_LOW : double := SOLAR_CIVIL_TWILIGHT_ELEV.
Definition TRANSITION_HIGH : double := double_of_Z 3.

(** The temperatures [main] accepts: it exits when
    [temp < MIN_TEMP || temp >= MAX_TEMP]. *)
Definition valid_temp (t : Z) : Prop := MIN_TEMP <= t < MAX_TEMP.

(** ** [calculate_temp] *)

(** The interpolation weight of the transition branch,
    [float a = (TRANSITION_LOW - elevation) /
               (TRANSITION_LOW - TRANSITION_HIGH)]:
    a [double] quotient stored in a [float]. *)
Definition transition_weight (elevation : double) : float :=
  float_of_double
    (ddiv (dsub TRANSITION_LOW elevation)
          (dsub TRANSITION_LOW TRANSITION_HIGH)).

(** The right-hand side of [temp = (1.0-a)*temp_night + a*temp_day]:
    [1.0-a] and the first product are computed in [double]; [a*temp_day] has
    a [float] and an [int] operand and is a [float] product; the sum is a
    [double]. *)
Definition interpolate (a : float) (temp_day temp_night : Z) : double :=
  dadd (dmul (dsub (double_of_Z 1) (double_of_float a)) (double_of_Z temp_night))
       (double_of_float (fmul a (float_of_Z temp_day))).

Definition calculate_temp (elevation : double) (temp_day temp_night : Z) : Z :=
  if lt elevation TRANSITION_LOW then
    temp_night
  else if lt elevation TRANSITION_HIGH then
    (* Transition period: interpolate *)
    let a := transition_weight elevation in
    int_of_double (interpolate a temp_day temp_night)
  else
    temp_day.



(** The specification's monotonicity of the transition: between [LOW] and
    [HIGH] a higher elevation gives a result at least as far from the night
    temperature, on the side of the day temperature. *)
Definition moves_toward_day : Prop :=
  forall (D N : Z) (e1 e2 : double),
    valid_temp D -> valid_temp N -> D <> N ->
    le TRANSITION_LOW e1 = true -> le e1 e2 = true ->
    le e2 TRANSITION_HIGH = true ->
    (calculate_temp e1 D N - N) * Z.sgn (D - N)
    <= (calculate_temp e2 D N - N) * Z.sgn (D - N).

(** Interpolation with weight zero, to be evaluated on every valid
    temperature: the [float] product is a zero, and the sum converts back to
    the night temperature. *)
Definition zero_product_check (D : Z) : bool :=
  match fmul (S754_zero true) (float_of_Z D) with
  | S754_zero true => true
  | _ => false
  end.

Definition zero_weight_check (N : Z) : bool :=
  int_of_double
    (dadd (dmul (dsub (double_of_Z 1) (S754_zero true)) (double_of_Z N))
          (S754_zero true)) =? N.

(** ** The display backends and [adjust_temperature] *)

(** [float gamma[3]]. *)
Definition gamma_t : Type := (float * float * float)%type.

(** What the four functions of [randr.h] and [vidmode.h] return while one
    call of [adjust_temperature] runs.  They belong to the X11 backends, not
    to this program: their results are inputs of the model.  A negative
    value reports failure. *)
Record backend_reply : Type := {
  randr_check_extension : Z;
  randr_set_temperature : Z;
  vidmode_check_extension : Z;
  vidmode_set_temperature : Z
}.

(** The calls [adjust_temperature] makes, in order. *)
Inductive backend_call : Type :=
| call_randr_check_extension
| call_randr_set_temperature (screen_num temp : Z) (gamma : gamma_t)
| call_vidmode_check_extension
| call_vidmode_set_temperature (screen_num temp : Z) (gamma : gamma_t).

Definition is_randr_check (c : backend_call) : bool :=
  match c with call_randr_check_extension => true | _ => false end.

Definition is_randr_set (c : backend_call) : bool :=
  match c with call_randr_set_temperature _ _ _ => true | _ => false end.

Definition is_vidmode_check (c : backend_call) : bool :=
  match c with call_vidmode_check_extension => true | _ => false end.

Definition is_vidmode_set (c : backend_call) : bool :=
  match c with call_vidmode_set_temperature _ _ _ => true | _ => false end.

Definition is_vidmode_call (c : backend_call) : bool :=
  is_vidmode_check c || is_vidmode_set c.


(** The RANDR attempt fails: the extension is missing or the temperature
    could not be set.  The same for VidMode. *)
Definition randr_fails (b : backend_reply) : Prop :=
  randr_check_extension b < 0 \/ randr_set_temperature b < 0.

Definition vidmode_fails (b : backend_reply) : Prop :=
  vidmode_check_extension b < 0 \/ vidmode_set_temperature b < 0.

Section Backends.

(** Compile-time configuration, [#ifdef ENABLE_RANDR] and
    [#ifdef ENABLE_VIDMODE]. *)
Variables ENABLE_RANDR ENABLE_VIDMODE : bool.

(** The RANDR attempt of [adjust_temperature]: the calls made and the value
    of [failed] after it. *)
Definition randr_attempt (screen_num temp : Z) (gamma : gamma_t)
    (b : backend_reply) : list backend_call * bool :=
  (* Check RANDR extension. *)
  let r := randr_check_extension b in
  if r <? 0 then ([call_randr_check_extension], true)
  else
    let r := randr_set_temperature b in
    ([call_randr_check_extension;
      call_randr_set_temperature screen_num temp gamma],
     r <? 0).

(** The VidMode attempt, which starts with [failed = 0]. *)
Definition vidmode_attempt (screen_num temp : Z) (gamma : gamma_t)
    (b : backend_reply) : list backend_call * bool :=
  (* Check VidMode extension *)
  let r := vidmode_check_extension b in
  if r <? 0 then ([call_vidmode_check_extension], true)
  else
    let r := vidmode_set_temperature b in
    ([call_vidmode_check_extension;
      call_vidmode_set_temperature screen_num temp gamma],
     r <? 0).

Definition adjust_temperature (screen_num : Z) (use_randr : bool) (temp : Z)
    (gamma : gamma_t) (b : backend_reply) : list backend_call * Z :=
  (* Set color temperature *)
  let failed := false in
  let '(calls, failed) :=
    if ENABLE_RANDR && use_randr
    then randr_attempt screen_num temp gamma b
    else ([], failed) in
  let '(calls, failed) :=
    if ENABLE_VIDMODE && (negb use_randr || failed)
    then let '(calls', failed) := vidmode_attempt screen_num temp gamma b in
         (calls ++ calls', failed)
    else (calls, failed) in
  if failed then (calls, -1) else (calls, 0).

End Backends.

(** ** The scheduling part of [main] *)

(** [struct timespec]. *)
Record timespec : Type := { tv_sec : Z; tv_nsec : Z }.

Definition EXIT_SUCCESS : Z := 0.
Definition EXIT_FAILURE : Z := 1.

(** The variables of [main] that the command line sets, as they stand when
    the checks of the parameters have passed. *)
Record config : Type := {
  lat : float;
  lon : float;
  temp_day : Z;
  temp_night : Z;
  gamma : gamma_t;
  use_randr : bool;
  screen_num : Z;
  init_trans : bool;
  one_shot : bool
}.

(** The surroundings of one run: what the n-th call of [clock_gettime]
    stores ([None] when it returns a negative value), and what the backends
    reply during the n-th call of [adjust_temperature]; both counted from
    0. *)
Record world : Type := {
  clock_gettime : nat -> option timespec;
  backend : nat -> backend_reply
}.

(** What a run does that can be seen from outside: a call of
    [adjust_temperature] (with the temperature passed, the backend calls it
    made and its result), a call of [usleep], the end of the process. *)
Inductive event : Type :=
| ev_adjust (temp : Z) (calls : list backend_call) (r : Z)
| ev_usleep (usec : Z)
| ev_exit (status : Z).

Definition is_adjust (e : event) : bool :=
  match e with ev_adjust _ _ _ => true | _ => false end.

(** Number of calls of [adjust_temperature] in a trace. *)
Definition count_adjust (tr : list event) : nat := length (filter is_adjust tr).

(** [int short_trans_len = 10]. *)
Definition short_trans_len : Z := 10.

(** [t.tv_sec + t.tv_nsec / 1000000000.0], a [double]. *)
Definition seconds (t : timespec) : double :=
  dadd (double_of_Z (tv_sec t))
       (ddiv (double_of_Z (tv_nsec t)) (double_of_Z 1000000000)).

(** [double alpha = (end - start) / (float)short_trans_len]. *)
Definition ramp_alpha (short_trans_end now : timespec) : double :=
  let start := seconds now in
  let end_ := seconds short_trans_end in
  ddiv (dsub end_ start) (double_of_float (float_of_Z short_trans_len)).

(** The right-hand side of [temp = alpha*6500 + (1.0-alpha)*temp], converted
    to [int] by the assignment. *)
Definition ramp_temp (alpha : double) (temp : Z) : Z :=
  int_of_double
    (dadd (dmul alpha (double_of_Z 6500))
          (dmul (dsub (double_of_Z 1) alpha) (double_of_Z temp))).

(** The block [if (init_trans) { ... }] of the loop: the new values of
    [init_trans] and [temp]. *)
Definition initial_transition (init_trans : bool)
    (short_trans_end now : timespec) (temp : Z) : bool * Z :=
  if init_trans then
    let alpha := ramp_alpha short_trans_end now in
    if lt alpha (double_of_Z 0) then (false, temp) (* Done *)
    else (init_trans, ramp_temp alpha temp)
  else (init_trans, temp).

Section Scheduler.

Variables ENABLE_RANDR ENABLE_VIDMODE : bool.

(** [solar_elevation] of [solar.h]; its definition is not among the sources
    and nothing below depends on what it computes. *)
Variable solar_elevation : timespec -> float -> float -> double.

Variable cfg : config.
Variable w : world.

(** The k-th call of [adjust_temperature] of the run. *)
Definition adjust (temp : Z) (k : nat) : list backend_call * Z :=
  adjust_temperature ENABLE_RANDR ENABLE_VIDMODE
    (screen_num cfg) (use_randr cfg) temp (gamma cfg) (backend w k).

(** The target temperature for the instant [now]. *)
Definition target_temp (now : timespec) : Z :=
  (* Current angular elevation of the sun *)
  let elevation := solar_elevation now (lat cfg) (lon cfg) in
  (* Use elevation of sun to set color temperature *)
  calculate_temp elevation (temp_day cfg) (temp_night cfg).

(** The branch [if (one_shot) { ... }], followed by [return EXIT_SUCCESS]. *)
Definition one_shot_mode : list event :=
  match clock_gettime w 0 with
  | None => [ev_exit EXIT_FAILURE]
  | Some now =>
      let temp := target_temp now in
      (* Adjust temperature *)
      let '(calls, r) := adjust temp 0 in
      if r <? 0 then [ev_adjust temp calls r; ev_exit EXIT_FAILURE]
      else [ev_adjust temp calls r; ev_exit EXIT_SUCCESS]
  end.

(** One turn of [while (1) { ... }], the k-th (from 0), entered with the
    given value of [init_trans]: the events of the turn, and the value of
    [init_trans] the next turn starts with, or [None] when the process has
    exited. *)
Definition iteration (short_trans_end : timespec) (k : nat) (init_trans : bool)
    : list event * option bool :=
  match clock_gettime w (S k) with
  | None => ([ev_exit EXIT_FAILURE], None)
  | Some now =>
      let temp := target_temp now in
      let '(init_trans, temp) :=
        initial_transition init_trans short_trans_end now temp in
      (* Adjust temperature *)
      let '(calls, r) := adjust temp k in
      if r <? 0 then ([ev_adjust temp calls r; ev_exit EXIT_FAILURE], None)
      else
        ([ev_adjust temp calls r;
          ev_usleep (if init_trans then 100000 else 5000000)],
         Some init_trans)
  end.

(** The first [fuel] turns of the loop, from the k-th on. *)
Fixpoint loop (short_trans_end : timespec) (fuel k : nat) (init_trans : bool)
    : list event :=
  match fuel with
  | O => []
  | S fuel' =>
      let '(evs, next) := iteration short_trans_end k init_trans in
      match next with
      | None => evs
      | Some init_trans' => evs ++ loop short_trans_end fuel' (S k) init_trans'
      end
  end.

(** The value of [short_trans_end] the loop runs with, when the first call
    of [clock_gettime] succeeds: 10 seconds after the start. *)
Definition ramp_end : option timespec :=
  match clock_gettime w 0 with
  | None => None
  | Some t =>
      Some {| tv_sec := tv_sec t + short_trans_len; tv_nsec := tv_nsec t |}
  end.

(** The branch [else { ... }]: a 10 second initial transition, then the
    loop. *)
Definition continuous_mode (fuel : nat) : list event :=
  match ramp_end with
  | None => [ev_exit EXIT_FAILURE]
  | Some short_trans_end => loop short_trans_end fuel 0 (init_trans cfg)
  end.

(** [main] from [if (one_shot)] on; in continuous mode, the events of the
    first [fuel] turns of the loop. *)
Definition main (fuel : nat) : list event :=
  if one_shot cfg then one_shot_mode else continuous_mode fuel.

(** The value of [init_trans] with which the turn is entered that comes [n]
    turns after the k-th, itself entered with [it]; [None] when the process
    has exited before. *)
Fixpoint init_trans_from (short_trans_end : timespec) (k : nat) (it : bool)
    (n : nat) : option bool :=
  match n with
  | O => Some it
  | S n' =>
      match init_trans_from short_trans_end k it n' with
      | None => None
      | Some it' => snd (iteration short_trans_end (n' + k) it')
      end
  end.

(** The value of [init_trans] the n-th turn of the loop is entered with. *)
Definition init_trans_at (short_trans_end : timespec) (n : nat) : option bool :=
  init_trans_from short_trans_end 0 (init_trans cfg) n.

(** The events of the n-th turn of the loop. *)
Definition events_at (short_trans_end : timespec) (n : nat) : list event :=
  match init_trans_at short_trans_end n with
  | None => []
  | Some it => fst (iteration short_trans_end n it)
  end.

(** The three ways a turn of the loop can go: the clock cannot be read; the
    adjustment fails; the adjustment succeeds and the turn ends in its
    sleep. *)
Inductive turn (short_trans_end : timespec) (k : nat) (it : bool)
    : list event -> option bool -> Prop :=
| turn_clock_failed :
    clock_gettime w (S k) = None ->
    turn short_trans_end k it [ev_exit EXIT_FAILURE] None
| turn_adjust_failed : forall now it' temp calls r,
    clock_gettime w (S k) = Some now ->
    initial_transition it short_trans_end now (target_temp now) = (it', temp) ->
    adjust temp k = (calls, r) ->
    r < 0 ->
    turn short_trans_end k it
         [ev_adjust temp calls r; ev_exit EXIT_FAILURE] None
| turn_sleep : forall now it' temp calls r,
    clock_gettime w (S k) = Some now ->
    initial_transition it short_trans_end now (target_temp now) = (it', temp) ->
    adjust temp k = (calls, r) ->
    0 <= r ->
    turn short_trans_end k it
         [ev_adjust temp calls r;
          ev_usleep (if it' then 100000 else 5000000)]
         (Some it').

End Scheduler.

(** ** Sample surroundings *)

Definition gamma_default : gamma_t :=
  (DEFAULT_GAMMA, DEFAULT_GAMMA, DEFAULT_GAMMA).

(** Both backends work. *)
Definition reply_ok : backend_reply :=
  {| randr_check_extension := 0; randr_set_temperature := 0;
     vidmode_check_extension := 0; vidmode_set_temperature := 0 |}.

(** RANDR is present, setting the temperature with it fails, VidMode
    works. *)
Definition reply_randr_set_fails : backend_reply :=
  {| randr_check_extension := 0; randr_set_temperature := -1;
     vidmode_check_extension := 0; vidmode_set_temperature := 0 |}.

(** Neither extension is available. *)
Definition reply_no_extension : backend_reply :=
  {| randr_check_extension := -1; randr_set_temperature := -1;
     vidmode_check_extension := -1; vidmode_set_temperature := -1 |}.

(** The defaults of [main] at latitude 55.7, longitude 12.6. *)
Definition sample_config (one_shot init_trans : bool) : config :=
  {| lat := float_of_double (double_of_ratio 557 10);
     lon := float_of_double (double_of_ratio 126 10);
     temp_day := DEFAULT_DAY_TEMP;
     temp_night := DEFAULT_NIGHT_TEMP;
     gamma := gamma_default;
     use_randr := true;
     screen_num := -1;
     init_trans := init_trans;
     one_shot := one_shot |}.

(** A sun that stands at [-1.5] degrees. *)
Definition twilight : timespec -> float -> float -> double :=
  fun _ _ _ => double_of_ratio (-15) 10.

(** [s] seconds after 2010-01-01 00:00:00 UTC. *)
Definition at_second (s : Z) : timespec :=
  {| tv_sec := 1262304000 + s; tv_nsec := 0 |}.

(** The clock reads 0 s at the start, then 3 s, 11 s and 16 s in the first
    three turns of the loop; it has been set back to 1 s in the fourth, and
    cannot be read in the fifth. *)
Definition sample_clock (n : nat) : option timespec :=
  match n with
  | 0%nat => Some (at_second 0)
  | 1%nat => Some (at_second 3)
  | 2%nat => Some (at_second 11)
  | 3%nat => Some (at_second 16)
  | 4%nat => Some (at_second 1)
  | _ => None
  end.

Definition sample_world : world :=
  {| clock_gettime := sample_clock; backend := fun _ => reply_ok |}.

(** The same, with the second call of [adjust_temperature] failing. *)
Definition failing_world : world :=
  {| clock_gettime := sample_clock;
     backend := fun k => match k with
                         | 1%nat => reply_no_extension
                         | _ => reply_ok
                         end |}.

(** A clock that cannot be read. *)
Definition no_clock_world : world :=
  {| clock_gettime := fun _ => None; backend := fun _ => reply_ok |}.

(** The program built with both backends, under the sample sun. *)
Definition sample_main (cfg : config) (w : world) (fuel : nat) : list event :=
  main true true twilight cfg w fuel.

Definition sample_events_at (cfg : config) (w : world) (n : nat) : list event :=
  events_at true true twilight cfg w (at_second 10) n.

Definition sample_init_trans_at (cfg : config) (w : world) (n : nat)
    : option bool :=
  init_trans_at true true twilight cfg w (at_second 10) n.

(** ** The command line and the checks of the parameters *)

(** [isnan]. *)
Definition isnan (x : spec_float) : bool :=
  match x with S754_nan => true | _ => false end.

(** [NAN]. *)
Definition NAN : float := S754_nan.

(** Bounds for parameters. *)
Definition MIN_LAT : double := double_of_Z (-90).
Definition MAX_LAT : double := double_of_Z 90.
Definition MIN_LON : double := double_of_Z (-180).
Definition MAX_LON : double := double_of_Z 180.
Definition MIN_GAMMA : double := double_of_ratio 1 10.
Definition MAX_GAMMA : double := double_of_Z 10.

(** The variables of [main]: those the scheduler reads, and [verbose]. *)
Record locals : Type := {
  vars : config;
  verbose : bool
}.

(** Assignments to the variables of [main]. *)
Definition set_location (new_lat new_lon : float) (l : locals) : locals :=
  {| vars := {| lat := new_lat; lon := new_lon;
                temp_day := temp_day (vars l);
                temp_night := temp_night (vars l);
                gamma := gamma (vars l);
                use_randr := use_randr (vars l);
                screen_num := screen_num (vars l);
                init_trans := init_trans (vars l);
                one_shot := one_shot (vars l) |};
     verbose := verbose l |}.

Definition set_temps (day night : Z) (l : locals) : locals :=
  {| vars := {| lat := lat (vars l); lon := lon (vars l);
                temp_day := day;
                temp_night := night;
                gamma := gamma (vars l);
                use_randr := use_randr (vars l);
                screen_num := screen_num (vars l);
                init_trans := init_trans (vars l);
                one_shot := one_shot (vars l) |};
     verbose := verbose l |}.

Definition set_gamma (g : gamma_t) (l : locals) : locals :=
  {| vars := {| lat := lat (vars l); lon := lon (vars l);
                temp_day := temp_day (vars l);
                temp_night := temp_night (vars l);
                gamma := g;
                use_randr := use_randr (vars l);
                screen_num := screen_num (vars l);
                init_trans := init_trans (vars l);
                one_shot := one_shot (vars l) |};
     verbose := verbose l |}.

Definition set_use_randr (b : bool) (l : locals) : locals :=
  {| vars := {| lat := lat (vars l); lon := lon (vars l);
                temp_day := temp_day (vars l);
                temp_night := temp_night (vars l);
                gamma := gamma (vars l);
                use_randr := b;
                screen_num := screen_num (vars l);
                init_trans := init_trans (vars l);
                one_shot := one_shot (vars l) |};
     verbose := verbose l |}.

Definition set_screen_num (n : Z) (l : locals) : locals :=
  {| vars := {| lat := lat (vars l); lon := lon (vars l);
                temp_day := temp_day (vars l);
                temp_night := temp_night (vars l);
                gamma := gamma (vars l);
                use_randr := use_randr (vars l);
                screen_num := n;
                init_trans := init_trans (vars l);
                one_shot := one_shot (vars l) |};
     verbose := verbose l |}.

Definition set_init_trans (b : bool) (l : locals) : locals :=
  {| vars := {| lat := lat (vars l); lon := lon (vars l);
                temp_day := temp_day (vars l);
                temp_night := temp_night (vars l);
                gamma := gamma (vars l);
                use_randr := use_randr (vars l);
                screen_num := screen_num (vars l);
                init_trans := b;
                one_shot := one_shot (vars l) |};
     verbose := verbose l |}.

Definition set_one_shot (b : bool) (l : locals) : locals :=
  {| vars := {| lat := lat (vars l); lon := lon (vars l);
                temp_day := temp_day (vars l);
                temp_night := temp_night (vars l);
                gamma := gamma (vars l);
                use_randr := use_randr (vars l);
                screen_num := screen_num (vars l);
                init_trans := init_trans (vars l);
                one_shot := b |};
     verbose := verbose l |}.

Definition set_verbose (b : bool) (l : locals) : locals :=
  {| vars := vars l; verbose := b |}.

(** How a stretch of [main] ends: with a call of [exit], or by going on
    with the variables as they stand. *)
Inductive outcome : Type :=
| Exit (status : Z)
| Continue (l : locals).

(** The checks of the parameters, in the order of the source. *)
Definition bad_location (l : locals) : bool :=
  (* Latitude and longitude must be set *)
  isnan (lat (vars l)) || isnan (lon (vars l))
  (* Latitude *)
  || lt (double_of_float (lat (vars l))) MIN_LAT
  || lt MAX_LAT (double_of_float (lat (vars l)))
  (* Longitude *)
  || lt (double_of_float (lon (vars l))) MIN_LON
  || lt MAX_LON (double_of_float (lon (vars l))).

Definition bad_temp (t : Z) : bool := (t <? MIN_TEMP) || (t >=? MAX_TEMP).

Definition bad_gamma_channel (g : float) : bool :=
  lt (double_of_float g) MIN_GAMMA || lt MAX_GAMMA (double_of_float g).

Definition bad_gamma (g : gamma_t) : bool :=
  let '(r, gr, b) := g in
  bad_gamma_channel r || bad_gamma_channel gr || bad_gamma_channel b.

Definition check_parameters (l : locals) : outcome :=
  if bad_location l then Exit EXIT_FAILURE
  (* Color temperature at daytime *)
  else if bad_temp (temp_day (vars l)) then Exit EXIT_FAILURE
  (* Color temperature at night *)
  else if bad_temp (temp_night (vars l)) then Exit EXIT_FAILURE
  (* Gamma *)
  else if bad_gamma (gamma (vars l)) then Exit EXIT_FAILURE
  else Continue l.

(** A gamma value the checks let through: not below 0.1 and not above 10;
    the comparisons are false on a NaN. *)
Definition gamma_accepted (g : float) : Prop :=
  isnan g = true \/
  (le MIN_GAMMA (double_of_float g) = true /\
   le (double_of_float g) MAX_GAMMA = true).

(** The parameters with which [main] goes on to set the temperature. *)
Definition parameters_accepted (c : config) : Prop :=
  isnan (lat c) = false /\ isnan (lon c) = false /\
  le MIN_LAT (double_of_float (lat c)) = true /\
  le (double_of_float (lat c)) MAX_LAT = true /\
  le MIN_LON (double_of_float (lon c)) = true /\
  le (double_of_float (lon c)) MAX_LON = true /\
  valid_temp (temp_day c) /\ valid_temp (temp_night c) /\
  gamma_accepted (fst (fst (gamma c))) /\
  gamma_accepted (snd (fst (gamma c))) /\
  gamma_accepted (snd (gamma c)).

Section CommandLine.

Import Ascii String.
Local Open Scope string_scope.

Variables ENABLE_RANDR ENABLE_VIDMODE : bool.

(** [atof] and [atoi] of the C library. *)
Variable atof : String.string -> double.
Variable atoi : String.string -> Z.

Variable solar_elevation : timespec -> float -> float -> double.

(** [s = strchr(optarg, ':')] followed, when [s] is not [NULL], by
    [*(s++) = '\0']: the text before the first colon, which [optarg] then
    holds, and the text after it, where [s] then points. *)
Fixpoint split_colon (optarg : String.string)
    : option (String.string * String.string) :=
  match optarg with
  | String.EmptyString => None
  | String.String c rest =>
      if Ascii.eqb c ":"%char then Some (String.EmptyString, rest)
      else
        match split_colon rest with
        | None => None
        | Some (before, after) => Some (String.String c before, after)
        end
  end.

(** Number of colons in a text. *)
Fixpoint count_colons (s : String.string) : nat :=
  match s with
  | String.EmptyString => 0%nat
  | String.String c rest =>
      if Ascii.eqb c ":"%char then S (count_colons rest)
      else count_colons rest
  end.

(** The variables of [main] before the arguments are parsed. *)
Definition initial_locals : locals :=
  {| vars := {| lat := NAN; lon := NAN;
                temp_day := DEFAULT_DAY_TEMP;
                temp_night := DEFAULT_NIGHT_TEMP;
                gamma := (DEFAULT_GAMMA, DEFAULT_GAMMA, DEFAULT_GAMMA);
                (* Don't use RANDR if it has been disabled. *)
                use_randr := ENABLE_RANDR;
                screen_num := -1;
                init_trans := true;
                one_shot := false |};
     verbose := false |}.

(** The body of [switch (opt)] for one result of [getopt]. *)
Definition option_case (opt : Ascii.ascii) (optarg : String.string)
    (l : locals) : outcome :=
  if Ascii.eqb opt "g"%char then
    match split_colon optarg with
    | None =>
        (* Use value for all channels *)
        let g := float_of_double (atof optarg) in
        Continue (set_gamma (g, g, g) l)
    | Some (red, s) =>
        (* Parse separate value for each channel *)
        match split_colon s with
        | None => Exit EXIT_FAILURE
        | Some (g_s, s') =>
            Continue (set_gamma (float_of_double (atof red),
                                 float_of_double (atof g_s),
                                 float_of_double (atof s')) l)
        end
    end
  else if Ascii.eqb opt "h"%char then Exit EXIT_SUCCESS
  else if Ascii.eqb opt "l"%char then
    match split_colon optarg with
    | None => Exit EXIT_FAILURE
    | Some (before, s) =>
        Continue (set_location (float_of_double (atof before))
                               (float_of_double (atof s)) l)
    end
  else if Ascii.eqb opt "m"%char then
    if String.eqb optarg "randr" || String.eqb optarg "RANDR" then
      if ENABLE_RANDR then Continue (set_use_randr true l)
      else Exit EXIT_FAILURE
    else if String.eqb optarg "vidmode" || String.eqb optarg "VidMode" then
      if ENABLE_VIDMODE then Continue (set_use_randr false l)
      else Exit EXIT_FAILURE
    else Exit EXIT_FAILURE
  else if Ascii.eqb opt "o"%char then Continue (set_one_shot true l)
  else if Ascii.eqb opt "r"%char then Continue (set_init_trans false l)
  else if Ascii.eqb opt "s"%char then Continue (set_screen_num (atoi optarg) l)
  else if Ascii.eqb opt "t"%char then
    match split_colon optarg with
    | None => Exit EXIT_FAILURE
    | Some (before, s) => Continue (set_temps (atoi before) (atoi s) l)
    end
  else if Ascii.eqb opt "v"%char then Continue (set_verbose true l)
  else Exit EXIT_FAILURE.

(** [while ((opt = getopt(...)) != -1) { switch (opt) ... }] over the
    results of [getopt], each with the [optarg] it leaves. *)
Fixpoint parse_arguments (opts : list (Ascii.ascii * String.string))
    (l : locals) : outcome :=
  match opts with
  | [] => Continue l
  | (opt, optarg) :: rest =>
      match option_case opt optarg l with
      | Exit status => Exit status
      | Continue l' => parse_arguments rest l'
      end
  end.

(** The option letters of the [switch]. *)
Definition known_option (opt : Ascii.ascii) : bool :=
  existsb (Ascii.eqb opt)
    ["g"%char; "h"%char; "l"%char; "m"%char; "o"%char; "r"%char; "s"%char;
     "t"%char; "v"%char].

(** A method name [-m] takes, for a backend that is compiled in. *)
Definition method_available (optarg : String.string) : bool :=
  (ENABLE_RANDR && (String.eqb optarg "randr" || String.eqb optarg "RANDR"))
  || (ENABLE_VIDMODE
      && (String.eqb optarg "vidmode" || String.eqb optarg "VidMode")).

(** What [main] refuses: a letter that is no option; [-l] or [-t] with an
    argument without a colon; [-g] with an argument with exactly one colon;
    [-m] with anything but the name of a backend compiled in. *)
Definition refused (opt : Ascii.ascii) (optarg : String.string) : bool :=
  negb (known_option opt)
  || ((Ascii.eqb opt "l"%char || Ascii.eqb opt "t"%char)
      && Nat.eqb (count_colons optarg) 0)
  || (Ascii.eqb opt "g"%char && Nat.eqb (count_colons optarg) 1)
  || (Ascii.eqb opt "m"%char && negb (method_available optarg)).

(** The backend selected is one that is compiled in. *)
Definition backend_compiled (c : config) : Prop :=
  (use_randr c = true -> ENABLE_RANDR = true) /\
  (use_randr c = false -> ENABLE_VIDMODE = true).

(** What the options other than a given one leave alone, and what [-o] and
    [-r] do for good: between the variables [l] before and [l'] after the
    options [opts]. *)
Definition untouched (given : ascii -> bool) (l l' : locals) : Prop :=
  (given "t"%char = false ->
   temp_day (vars l') = temp_day (vars l) /\
   temp_night (vars l') = temp_night (vars l)) /\
  (given "g"%char = false -> gamma (vars l') = gamma (vars l)) /\
  (given "m"%char = false -> use_randr (vars l') = use_randr (vars l)) /\
  (given "s"%char = false -> screen_num (vars l') = screen_num (vars l)) /\
  (given "r"%char = false -> init_trans (vars l') = init_trans (vars l)) /\
  (given "o"%char = false -> one_shot (vars l') = one_shot (vars l)) /\
  (given "v"%char = false -> verbose l' = verbose l) /\
  (given "o"%char = true \/ one_shot (vars l) = true ->
   one_shot (vars l') = true) /\
  (given "r"%char = true \/ init_trans (vars l) = false ->
   init_trans (vars l') = false).

(** The options given, in the order [getopt] returns them. *)
Definition option_given (opt : Ascii.ascii)
    (opts : list (Ascii.ascii * String.string)) : bool :=
  existsb (fun o => Ascii.eqb (fst o) opt) opts.

(** [main] up to [if (one_shot)]: the locale, the arguments, the checks. *)
Definition startup (locale_ok : bool)
    (opts : list (Ascii.ascii * String.string)) : outcome :=
  (* Init locale for degree symbol. *)
  if negb locale_ok then Exit EXIT_FAILURE
  else
    match parse_arguments opts initial_locals with
    | Exit status => Exit status
    | Continue l => check_parameters l
    end.

(** The whole of [main]. *)
Definition main_with_arguments (locale_ok : bool)
    (opts : list (Ascii.ascii * String.string)) (w : world) (fuel : nat)
    : list event :=
  match startup locale_ok opts with
  | Exit status => [ev_exit status]
  | Continue l =>
      main ENABLE_RANDR ENABLE_VIDMODE solar_elevation (vars l) w fuel
  end.

End CommandLine.

(** The sleeps of a run, in order. *)
Fixpoint sleeps (tr : list event) : list Z :=
  match tr with
  | [] => []
  | ev_usleep usec :: rest => usec :: sleeps rest
  | _ :: rest => sleeps rest
  end.

(** A backend call that sets the temperature with the given arguments. *)
Definition sets_temperature (screen_num temp : Z) (gamma : gamma_t)
    (c : backend_call) : Prop :=
  c = call_randr_set_temperature screen_num temp gamma \/
  c = call_vidmode_set_temperature screen_num temp gamma.

(** The backends never fail during the first [n] calls of
    [adjust_temperature]. *)
Definition backends_work (w : world) (n : nat) : Prop :=
  forall k, (k < n)%nat ->
    ~ randr_fails (backend w k) /\ ~ vidmode_fails (backend w k).

(** The clock can be read during the first [n] turns of the loop. *)
Definition clock_works (w : world) (n : nat) : Prop :=
  forall k, (k <= n)%nat -> clock_gettime w k <> None.

(** The blend at the two ends of the ramp, to be evaluated on every
    temperature from 0 to 10000: with [alpha = 1] it is 6500, with
    [alpha = 0] it is the target. *)
Definition ramp_start_check (temp : Z) : bool :=
  ramp_temp (double_of_Z 1) temp =? 6500.

Definition ramp_end_check (temp : Z) : bool :=
  ramp_temp (double_of_Z 0) temp =? temp.

Definition is_randr_call (c : backend_call) : bool :=
  is_randr_check c || is_randr_set c.

(** ** Sample command lines *)

Section SampleCommandLines.

Import Ascii String.
Local Open Scope string_scope.

(** What [atof] and [atoi] return on the texts of the samples. *)
Definition sample_atof (s : string) : double :=
  if String.eqb s "55.7" then double_of_ratio 557 10
  else if String.eqb s "12.6" then double_of_ratio 126 10
  else if String.eqb s "1.0" then double_of_Z 1
  else double_of_Z 0.

Definition sample_atoi (s : string) : Z :=
  if String.eqb s "5500" then 5500
  else if String.eqb s "3700" then 3700
  else if String.eqb s "10000" then 10000
  else 0.

(** The letters of [-h], [-l], [-o] and [-r]. *)
Definition letter_h : ascii := "h"%char.
Definition letter_l : ascii := "l"%char.
Definition letter_o : ascii := "o"%char.
Definition letter_r : ascii := "r"%char.

(** [-l 55.7:12.6]. *)
Definition options_location : list (ascii * string) :=
  [("l"%char, "55.7:12.6")].

(** [-l 55.7:12.6 -o]. *)
Definition options_one_shot : list (ascii * string) :=
  [("l"%char, "55.7:12.6"); ("o"%char, "")].

(** [-t 5500:3700 -r]: no location. *)
Definition options_no_location : list (ascii * string) :=
  [("t"%char, "5500:3700"); ("r"%char, "")].

(** [-l 55.7:12.6 -r]. *)
Definition options_no_transition : list (ascii * string) :=
  [("l"%char, "55.7:12.6"); ("r"%char, "")].

(** [-l 55.7:12.6 -h -o]. *)
Definition options_help : list (ascii * string) :=
  [("l"%char, "55.7:12.6"); ("h"%char, ""); ("o"%char, "")].

(** [-g 1.0:1.0], an argument with one colon. *)
Definition option_gamma_two : ascii * string := ("g"%char, "1.0:1.0").

(** The whole program built with both backends, under the sample sun. *)
Definition sample_program (opts : list (ascii * string)) (w : world)
    (fuel : nat) : list event :=
  main_with_arguments true true sample_atof sample_atoi twilight true opts
    w fuel.

Definition sample_parse (opts : list (ascii * string)) : outcome :=
  parse_arguments true true sample_atof sample_atoi opts (initial_locals true).

End SampleCommandLines.

(** * Properties *)

(** ** The IEEE layer *)



Lemma check_range_sound :
  forall (P : Z -> bool) (lo hi : Z),
    check_range P lo hi = true ->
    forall z, lo <= z < hi -> P z = true.
Proof.
  intros P lo hi H z Hz. unfold check_range in H.
  rewrite forallb_forall in H.
  specialize (H (Z.to_nat (z - lo))).
  rewrite Z2Nat.id in H by lia.
  replace (lo + (z - lo)) with z in H by lia.
  apply H. apply in_seq. lia.
Qed.

(** Swapping the sides of a comparison reverses its result. *)
Lemma SFcompare_swap :
  forall x y : spec_float,
    SFcompare y x = option_map CompOpp (SFcompare x y).
Proof.
  intros [sx | sx | | sx mx ex] [sy | sy | | sy my ey];
    try reflexivity; try (destruct sx; reflexivity);
    try (destruct sy; reflexivity);
    try (destruct sx, sy; reflexivity).
  destruct sx, sy; cbn [SFcompare option_map]; try reflexivity;
    rewrite (Z.compare_antisym ex ey);
    destruct (ex ?= ey); cbn [CompOpp]; try reflexivity.
  - rewrite CompOpp_involutive. f_equal.
    exact (Pos.compare_cont_antisym my mx Eq).
  - f_equal. symmetry. exact (Pos.compare_cont_antisym mx my Eq).
Qed.

(** [y <= x] excludes [x < y]. *)
Lemma le_not_lt :
  forall x y : spec_float, le y x = true -> lt x y = false.
Proof.
  intros x y H. unfold le, SFleb in H. unfold lt, SFltb.
  rewrite (SFcompare_swap y x).
  destruct (SFcompare y x) as [[ | | ] | ]; try discriminate; reflexivity.
Qed.

(** ** The thresholds *)

Lemma TRANSITION_LOW_value :
  TRANSITION_LOW = S754_finite true 6755399441055744 (-50).
Proof. vm_compute. reflexivity. Qed.

Lemma TRANSITION_HIGH_value :
  TRANSITION_HIGH = S754_finite false 6755399441055744 (-51).
Proof. vm_compute. reflexivity. Qed.

(** An elevation of at least [TRANSITION_HIGH] is not below
    [TRANSITION_LOW]. *)
Lemma above_high_not_below_low :
  forall e : double,
    le TRANSITION_HIGH e = true -> lt e TRANSITION_LOW = false.
Proof.
  intros e H. rewrite TRANSITION_HIGH_value in H. rewrite TRANSITION_LOW_value.
  destruct e as [s | s | | s m ex]; try destruct s; try discriminate H;
    reflexivity.
Qed.

(** At the lower threshold the weight is a (negative) zero. *)
Lemma transition_weight_low :
  transition_weight TRANSITION_LOW = S754_zero true.
Proof. vm_compute. reflexivity. Qed.

(** ** Interpolation with weight zero, by evaluation on every valid
    temperature *)

Lemma zero_product_checked :
  check_range zero_product_check MIN_TEMP MAX_TEMP = true.
Proof. vm_compute. reflexivity. Qed.

Lemma zero_weight_checked :
  check_range zero_weight_check MIN_TEMP MAX_TEMP = true.
Proof. vm_compute. reflexivity. Qed.

Lemma interpolate_zero_weight :
  forall D N : Z,
    valid_temp D -> valid_temp N ->
    int_of_double (interpolate (S754_zero true) D N) = N.
Proof.
  intros D N HD HN.
  pose proof (check_range_sound _ _ _ zero_product_checked D HD) as PD.
  pose proof (check_range_sound _ _ _ zero_weight_checked N HN) as PN.
  unfold zero_product_check in PD. unfold zero_weight_check in PN.
  unfold interpolate.
  destruct (fmul (S754_zero true) (float_of_Z D)) as [[ | ] | | | ];
    try discriminate PD.
  cbn [double_of_float].
  apply Z.eqb_eq. exact PN.
Qed.

Lemma valid_default_temps :
  valid_temp DEFAULT_DAY_TEMP /\ valid_temp DEFAULT_NIGHT_TEMP.
Proof.
  unfold valid_temp, MIN_TEMP, MAX_TEMP, DEFAULT_DAY_TEMP, DEFAULT_NIGHT_TEMP.
  lia.
Qed.

(** ** [calculate_temp] *)




(** C3.  For day and night temperatures in [1000, 9999]: at every
    elevation below [LOW] the result is the night temperature exactly, at
    [e = LOW] too, and at every elevation from [HIGH] on it is the day
    temperature exactly. *)
Theorem calculate_temp_night_day :
  forall (e_night e_day : double) (D N : Z),
    valid_temp D -> valid_temp N ->
    lt e_night TRANSITION_LOW = true ->
    le TRANSITION_HIGH e_day = true ->
    calculate_temp e_night D N = N /\
    calculate_temp TRANSITION_LOW D N = N /\
    calculate_temp e_day D N = D.
Proof.
  intros e_night e_day D N HD HN Hnight Hday. repeat split.
  - unfold calculate_temp. rewrite Hnight. reflexivity.
  - unfold calculate_temp.
    replace (lt TRANSITION_LOW TRANSITION_LOW) with false
      by (vm_compute; reflexivity).
    replace (lt TRANSITION_LOW TRANSITION_HIGH) with true
      by (vm_compute; reflexivity).
    cbv zeta. rewrite transition_weight_low.
    apply interpolate_zero_weight; assumption.
  - unfold calculate_temp.
    rewrite (above_high_not_below_low e_day Hday), (le_not_lt e_day _ Hday).
    reflexivity.
Qed.

Lemma calculate_temp_night_day_witness :
  (valid_temp 5500 /\ valid_temp 3700 /\
   lt (double_of_Z (-10)) TRANSITION_LOW = true /\
   le TRANSITION_HIGH (double_of_Z 10) = true) /\
  calculate_temp (double_of_Z (-10)) 5500 3700 = 3700 /\
  calculate_temp TRANSITION_LOW 5500 3700 = 3700 /\
  calculate_temp (double_of_Z 10) 5500 3700 = 5500.
Proof.
  split.
  - split; [exact (proj1 valid_default_temps) | ].
    split; [exact (proj2 valid_default_temps) | ].
    split; vm_compute; reflexivity.
  - apply (calculate_temp_night_day (double_of_Z (-10)) (double_of_Z 10)
             5500 3700 (proj1 valid_default_temps) (proj2 valid_default_temps));
      vm_compute; reflexivity.
Defined.

(** C4 fails on the source.  With the default temperatures, [D = 5500] and
    [N = 3700], the elevation [-5.89500001] gives 3721 and the higher
    elevation [-5.895] gives 3720; with [D = 5500] and [N = 5499], [2.9998]
    gives 5500 and [2.9999] gives 5499.  The weight is kept in a [float],
    the product [a*temp_day] is a [float] product and the sum is cut to its
    integral part, so the result can step back by one kelvin. *)
Theorem calculate_temp_not_monotone :
  (let e1 := double_of_ratio (-589500001) 100000000 in
   let e2 := double_of_ratio (-5895) 1000 in
   le TRANSITION_LOW e1 = true /\ lt e1 e2 = true /\
   lt e2 TRANSITION_HIGH = true /\
   calculate_temp e1 5500 3700 = 3721 /\
   calculate_temp e2 5500 3700 = 3720) /\
  (let e1 := double_of_ratio 29998 10000 in
   let e2 := double_of_ratio 29999 10000 in
   le TRANSITION_LOW e1 = true /\ lt e1 e2 = true /\
   lt e2 TRANSITION_HIGH = true /\
   calculate_temp e1 5500 5499 = 5500 /\
   calculate_temp e2 5500 5499 = 5499) /\
  ~ moves_toward_day.
Proof.
  split; [vm_compute; repeat split; reflexivity | split].
  - vm_compute. repeat split; reflexivity.
  - intros H.
    specialize (H 5500 3700 (double_of_ratio (-589500001) 100000000)
                  (double_of_ratio (-5895) 1000)
                  (proj1 valid_default_temps) (proj2 valid_default_temps)).
    specialize (H ltac:(lia)).
    specialize (H ltac:(vm_compute; reflexivity) ltac:(vm_compute; reflexivity)
                  ltac:(vm_compute; reflexivity)).
    vm_compute in H. apply H. reflexivity.
Qed.

(** How the step back comes about, with [D = 5500] and [N = 3700].  The
    two elevations give weights one unit in the last place of a [float]
    apart, [12526987 / 2^30] and [12526988 / 2^30].  The products
    [a*5500], exactly 64.1666618... and 64.1666669..., both round to the
    same [float], [8410453 / 2^17 = 64.1666641...], while [(1.0-a)*3700]
    goes down from 3656.8333365... to 3656.8333331...: the sum goes from
    3721.0000007... to 3720.9999972..., and the conversion to [int] cuts
    the second to 3720. *)
Lemma calculate_temp_step_back_trace :
  let e1 := double_of_ratio (-589500001) 100000000 in
  let e2 := double_of_ratio (-5895) 1000 in
  let a1 := transition_weight e1 in
  let a2 := transition_weight e2 in
  a1 = S754_finite false 12526987 (-30) /\
  a2 = S754_finite false 12526988 (-30) /\
  fmul a1 (float_of_Z 5500) = S754_finite false 8410453 (-17) /\
  fmul a2 (float_of_Z 5500) = S754_finite false 8410453 (-17) /\
  interpolate a1 5500 3700 = S754_finite false 8182565535490048 (-41) /\
  interpolate a2 5500 3700 = S754_finite false 8182565527912448 (-41) /\
  3721 * 2 ^ 41 <= 8182565535490048 /\
  8182565527912448 < 3721 * 2 ^ 41.
Proof. vm_compute. repeat split; try reflexivity; discriminate. Qed.

(** ** [adjust_temperature] *)



(** ** The scheduler *)

Section SchedulerProperties.

Variables ENABLE_RANDR ENABLE_VIDMODE : bool.
Variable solar_elevation : timespec -> float -> float -> double.
Variable cfg : config.
Variable w : world.

(** The definitions of the scheduler in these surroundings. *)
Local Abbreviation Adjust := (adjust ENABLE_RANDR ENABLE_VIDMODE cfg w).
Local Abbreviation Target := (target_temp solar_elevation cfg).
Local Abbreviation Iteration :=
  (iteration ENABLE_RANDR ENABLE_VIDMODE solar_elevation cfg w).
Local Abbreviation Loop :=
  (loop ENABLE_RANDR ENABLE_VIDMODE solar_elevation cfg w).
Local Abbreviation Turn :=
  (turn ENABLE_RANDR ENABLE_VIDMODE solar_elevation cfg w).
Local Abbreviation Init_trans_from :=
  (init_trans_from ENABLE_RANDR ENABLE_VIDMODE solar_elevation cfg w).
Local Abbreviation Init_trans_at :=
  (init_trans_at ENABLE_RANDR ENABLE_VIDMODE solar_elevation cfg w).
Local Abbreviation Events_at :=
  (events_at ENABLE_RANDR ENABLE_VIDMODE solar_elevation cfg w).
Local Abbreviation Main :=
  (main ENABLE_RANDR ENABLE_VIDMODE solar_elevation cfg w).

(** Every turn goes one of the three ways. *)
Lemma iteration_turn :
  forall (ste : timespec) (k : nat) (it : bool),
    Turn ste k it (fst (Iteration ste k it)) (snd (Iteration ste k it)).
Proof.
  intros ste k it. unfold iteration.
  destruct (clock_gettime w (S k)) as [now | ] eqn:Hclock.
  - destruct (initial_transition it ste now (Target now)) as [it' temp] eqn:Hit.
    destruct (Adjust temp k) as [calls r] eqn:Hadj.
    destruct (Z.ltb_spec r 0) as [Hr | Hr]; cbn [fst snd].
    + eapply turn_adjust_failed; eassumption.
    + eapply turn_sleep; eassumption.
  - cbn [fst snd]. apply turn_clock_failed. exact Hclock.
Qed.

(** Unfolding the loop by one turn. *)
Lemma loop_step :
  forall (ste : timespec) (fuel k : nat) (it : bool),
    Loop ste (S fuel) k it =
    fst (Iteration ste k it) ++
    match snd (Iteration ste k it) with
    | None => []
    | Some it' => Loop ste fuel (S k) it'
    end.
Proof.
  intros ste fuel k it. cbn [loop].
  destruct (Iteration ste k it) as [evs [it' | ]]; cbn [fst snd].
  - reflexivity.
  - rewrite app_nil_r. reflexivity.
Qed.

Lemma init_trans_from_shift :
  forall (ste : timespec) (k : nat) (it : bool) (n : nat),
    Init_trans_from ste k it (S n) =
    match snd (Iteration ste k it) with
    | None => None
    | Some it' => Init_trans_from ste (S k) it' n
    end.
Proof.
  intros ste k it n. induction n as [ | n IH].
  - cbn. destruct (snd (Iteration ste k it)); reflexivity.
  - change (Init_trans_from ste k it (S (S n)))
      with (match Init_trans_from ste k it (S n) with
            | None => None
            | Some it' => snd (Iteration ste (S n + k) it')
            end).
    rewrite IH.
    destruct (snd (Iteration ste k it)) as [it' | ]; [ | reflexivity].
    cbn [init_trans_from].
    replace (n + S k)%nat with (S n + k)%nat by lia. reflexivity.
Qed.

(** The trace of the loop is the sequence of the events of its turns. *)
Lemma loop_turns :
  forall (ste : timespec) (fuel k : nat) (it : bool),
    Loop ste fuel k it =
    concat (map (fun n =>
                   match Init_trans_from ste k it n with
                   | None => []
                   | Some it' => fst (Iteration ste (n + k) it')
                   end)
                (seq 0 fuel)).
Proof.
  intros ste fuel. induction fuel as [ | fuel IH]; intros k it.
  - reflexivity.
  - rewrite loop_step.
    change (seq 0 (S fuel)) with (0%nat :: seq 1 fuel).
    rewrite <- seq_shift. cbn [map concat]. rewrite map_map.
    change (Init_trans_from ste k it 0) with (Some it).
    rewrite Nat.add_0_l. f_equal.
    destruct (snd (Iteration ste k it)) as [it' | ] eqn:Hnext.
    + rewrite IH. f_equal. apply map_ext. intros n.
      rewrite init_trans_from_shift, Hnext.
      replace (S n + k)%nat with (n + S k)%nat by lia. reflexivity.
    + symmetry. apply concat_nil_Forall. apply Forall_forall.
      intros l Hl. apply in_map_iff in Hl. destruct Hl as [n [Hn _]].
      rewrite init_trans_from_shift, Hnext in Hn. symmetry. exact Hn.
Qed.

Lemma main_one_shot :
  forall fuel : nat,
    one_shot cfg = true ->
    Main fuel = one_shot_mode ENABLE_RANDR ENABLE_VIDMODE solar_elevation cfg w.
Proof. intros fuel H. unfold main. rewrite H. reflexivity. Qed.

Lemma main_continuous :
  forall (ste : timespec) (fuel : nat),
    one_shot cfg = false -> ramp_end w = Some ste ->
    Main fuel = Loop ste fuel 0 (init_trans cfg).
Proof.
  intros ste fuel Hmode Hend. unfold main, continuous_mode.
  rewrite Hmode, Hend. reflexivity.
Qed.

(** In continuous mode the run is the sequence of the events of the turns
    of the loop. *)
Lemma main_turns :
  forall (ste : timespec) (fuel : nat),
    one_shot cfg = false -> ramp_end w = Some ste ->
    Main fuel = concat (map (Events_at ste) (seq 0 fuel)).
Proof.
  intros ste fuel Hmode Hend. rewrite (main_continuous ste fuel Hmode Hend).
  rewrite loop_turns. f_equal. apply map_ext. intros n.
  unfold events_at, init_trans_at. rewrite Nat.add_0_r. reflexivity.
Qed.

(** A reached turn goes one of the three ways, and hands the next turn its
    value of [init_trans]. *)
Lemma events_at_turn :
  forall (ste : timespec) (n : nat) (it : bool),
    Init_trans_at ste n = Some it ->
    Turn ste n it (Events_at ste n) (Init_trans_at ste (S n)).
Proof.
  intros ste n it H. unfold events_at, init_trans_at in *.
  cbn [init_trans_from]. rewrite H, Nat.add_0_r. apply iteration_turn.
Qed.

(** What the block [if (init_trans) { ... }] leaves. *)
Lemma initial_transition_steady :
  forall (ste now : timespec) (temp : Z),
    initial_transition false ste now temp = (false, temp).
Proof. reflexivity. Qed.



(** [init_trans], once 0, is 0 in every later turn. *)
Lemma steady_next :
  forall (ste : timespec) (n : nat),
    Init_trans_at ste n = Some false ->
    Init_trans_at ste (S n) = Some false \/ Init_trans_at ste (S n) = None.
Proof.
  intros ste n H. pose proof (events_at_turn ste n false H) as T.
  remember (Init_trans_at ste (S n)) as next eqn:Hnext.
  destruct T as [Hc | now it' temp calls r Hc Hi Ha Hr
                    | now it' temp calls r Hc Hi Ha Hr].
  - right. reflexivity.
  - right. reflexivity.
  - left. rewrite initial_transition_steady in Hi.
    injection Hi as <- _. reflexivity.
Qed.

Lemma steady_forever :
  forall (ste : timespec) (n m : nat),
    (n <= m)%nat ->
    Init_trans_at ste n = Some false ->
    Init_trans_at ste m = Some false \/ Init_trans_at ste m = None.
Proof.
  intros ste n m Hle H. induction Hle as [ | m Hle IH].
  - left. exact H.
  - destruct IH as [IH | IH].
    + apply steady_next. exact IH.
    + right. unfold init_trans_at in *. cbn [init_trans_from].
      rewrite IH. reflexivity.
Qed.


(** With [init_trans] 0 the loop sleeps 5 seconds each time. *)
Lemma loop_steady_sleep :
  forall (ste : timespec) (fuel k : nat) (d : Z),
    In (ev_usleep d) (Loop ste fuel k false) -> d = 5000000.
Proof.
  intros ste fuel. induction fuel as [ | fuel IH]; intros k d H.
  - contradiction.
  - rewrite loop_step in H.
    pose proof (iteration_turn ste k false) as T.
    destruct (Iteration ste k false) as [evs next]. cbn [fst snd] in *.
    inversion T as [Hc | now it' temp calls r Hc Hi Ha Hr
                       | now it' temp calls r Hc Hi Ha Hr]; subst.
    + cbn in H. destruct H as [H | []]. discriminate.
    + cbn in H. destruct H as [H | [H | []]]; discriminate.
    + rewrite initial_transition_steady in Hi. injection Hi as <- <-.
      cbn in H. destruct H as [H | [H | H]]; try discriminate.
      * injection H as <-. reflexivity.
      * eapply IH. exact H.
Qed.

(** The loop stops at a failed adjustment. *)
Lemma loop_adjust_failure :
  forall (ste : timespec) (fuel k : nat) (it : bool) (pre post : list event)
         (temp : Z) (calls : list backend_call) (r : Z),
    Loop ste fuel k it = pre ++ ev_adjust temp calls r :: post ->
    r < 0 ->
    post = [ev_exit EXIT_FAILURE] /\
    (forall fuel', (fuel <= fuel')%nat -> Loop ste fuel' k it = Loop ste fuel k it).
Proof.
  intros ste fuel. induction fuel as [ | fuel IH];
    intros k it pre post temp calls r H Hneg.
  - destruct pre; discriminate.
  - rewrite loop_step in H.
    pose proof (iteration_turn ste k it) as T.
    destruct (Iteration ste k it) as [evs next] eqn:Hiter. cbn [fst snd] in *.
    inversion T as [Hc | now it' temp' calls' r' Hc Hi Ha Hr
                       | now it' temp' calls' r' Hc Hi Ha Hr]; subst.
    + destruct pre as [ | x [ | y pre]]; discriminate.
    + destruct pre as [ | x [ | y [ | z pre]]]; try discriminate.
      injection H as <- <- <- <-. split; [reflexivity | ].
      intros fuel' Hle. destruct fuel' as [ | fuel']; [lia | ].
      rewrite !loop_step, Hiter. reflexivity.
    + destruct pre as [ | x [ | y pre]]; try discriminate.
      * injection H as _ _ <- _. lia.
      * cbn in H. injection H as _ _ H.
        destruct (IH (S k) it' pre post temp calls r H Hneg) as [Hpost Hstable].
        split; [exact Hpost | ].
        intros fuel' Hle. destruct fuel' as [ | fuel']; [lia | ].
        rewrite !loop_step, Hiter. cbn [fst snd]. f_equal.
        apply Hstable. lia.
Qed.


(** C6.  In continuous mode, a call of [adjust_temperature] that reports
    failure is followed by the exit of the process with a non-zero status
    and by nothing else: however long the run is watched, no further call
    follows. *)
Theorem adjust_failure_halts :
  forall (fuel : nat) (pre post : list event) (temp : Z)
         (calls : list backend_call) (r : Z),
    one_shot cfg = false ->
    Main fuel = pre ++ ev_adjust temp calls r :: post ->
    r < 0 ->
    post = [ev_exit EXIT_FAILURE] /\
    EXIT_FAILURE <> 0 /\
    (forall fuel', (fuel <= fuel')%nat -> Main fuel' = Main fuel).
Proof.
  intros fuel pre post temp calls r Hmode H Hneg.
  destruct (ramp_end w) as [ste | ] eqn:Hend.
  - rewrite (main_continuous ste fuel Hmode Hend) in H.
    destruct (loop_adjust_failure _ _ _ _ _ _ _ _ _ H Hneg) as [Hpost Hstable].
    split; [exact Hpost | split; [discriminate | ]].
    intros fuel' Hle. rewrite !(main_continuous ste _ Hmode Hend).
    apply Hstable. exact Hle.
  - unfold main, continuous_mode in H. rewrite Hmode, Hend in H.
    destruct pre as [ | x [ | y pre]]; discriminate.
Qed.

(** C7.  In continuous mode every turn of the loop that reaches its
    [usleep] sleeps 100000 microseconds when the startup ramp is still
    active at that point and 5000000 microseconds when it is not; with the
    initial transition disabled the ramp is never active and every sleep of
    the run lasts 5000000 microseconds. *)
Theorem sleep_interval :
  forall (ste : timespec) (n : nat) (it' : bool),
    one_shot cfg = false ->
    ramp_end w = Some ste ->
    Init_trans_at ste (S n) = Some it' ->
    (exists temp calls r,
        Events_at ste n
        = [ev_adjust temp calls r;
           ev_usleep (if it' then 100000 else 5000000)]) /\
    (init_trans cfg = false -> it' = false) /\
    (init_trans cfg = false ->
     forall fuel d, In (ev_usleep d) (Main fuel) -> d = 5000000).
Proof.
  intros ste n it' Hmode Hend Hnext. split; [ | split].
  - destruct (Init_trans_at ste n) as [it | ] eqn:H.
    + pose proof (events_at_turn ste n it H) as T. rewrite Hnext in T.
      remember (Some it') as next eqn:Hn.
      destruct T as [Hc | now it'' temp calls r Hc Hi Ha Hr
                        | now it'' temp calls r Hc Hi Ha Hr];
        try discriminate.
      injection Hn as <-. eauto.
    + unfold init_trans_at in *. cbn [init_trans_from] in Hnext.
      rewrite H in Hnext. discriminate.
  - intros Hoff.
    assert (H0 : Init_trans_at ste 0 = Some false)
      by (unfold init_trans_at; cbn; rewrite Hoff; reflexivity).
    destruct (steady_forever ste 0 (S n) ltac:(lia) H0) as [H | H];
      congruence.
  - intros Hoff fuel d H.
    rewrite (main_continuous ste fuel Hmode Hend), Hoff in H.
    eapply loop_steady_sleep. exact H.
Qed.


(** C9, as amended.  In single-shot mode, when the clock can be read the
    run is one call of [adjust_temperature] followed by the end of the
    process, with success status when the call succeeded and failure status
    otherwise; when the clock cannot be read the process ends with failure
    status and makes no call.  Either way it never sleeps: the polling loop
    is not entered. *)
Theorem one_shot_single_adjust :
  forall fuel : nat,
    one_shot cfg = true ->
    (forall now,
        clock_gettime w 0 = Some now ->
        exists calls r,
          Main fuel
          = [ev_adjust (Target now) calls r;
             ev_exit (if r <? 0 then EXIT_FAILURE else EXIT_SUCCESS)] /\
          count_adjust (Main fuel) = 1%nat) /\
    (clock_gettime w 0 = None ->
     Main fuel = [ev_exit EXIT_FAILURE] /\ count_adjust (Main fuel) = 0%nat) /\
    (forall d, ~ In (ev_usleep d) (Main fuel)).
Proof.
  intros fuel Hmode. rewrite (main_one_shot fuel Hmode).
  unfold one_shot_mode. split; [ | split].
  - intros now Hclock. rewrite Hclock.
    destruct (Adjust (Target now) 0%nat) as [calls r].
    exists calls, r. destruct (r <? 0); split; reflexivity.
  - intros Hclock. rewrite Hclock. split; reflexivity.
  - intros d. destruct (clock_gettime w 0) as [now | ].
    + destruct (Adjust (Target now) 0%nat) as [calls r].
      destruct (r <? 0); cbn; intros [H | [H | []]]; discriminate.
    + cbn. intros [H | []]. discriminate.
Qed.

(** C10.  In single-shot mode every temperature passed to
    [adjust_temperature] is what [calculate_temp] returns for the current
    elevation, whether the initial transition is enabled or not. *)
Theorem one_shot_no_ramp :
  forall (fuel : nat) (temp : Z) (calls : list backend_call) (r : Z),
    one_shot cfg = true ->
    In (ev_adjust temp calls r) (Main fuel) ->
    exists now,
      clock_gettime w 0 = Some now /\
      temp = calculate_temp (solar_elevation now (lat cfg) (lon cfg))
               (temp_day cfg) (temp_night cfg).
Proof.
  intros fuel temp calls r Hmode H. rewrite (main_one_shot fuel Hmode) in H.
  unfold one_shot_mode in H.
  destruct (clock_gettime w 0) as [now | ].
  - exists now. split; [reflexivity | ].
    destruct (Adjust (Target now) 0%nat) as [calls' r'].
    destruct (r' <? 0); cbn in H; destruct H as [H | [H | []]];
      try discriminate; injection H as <- _ _; reflexivity.
  - cbn in H. destruct H as [H | []]. discriminate.
Qed.

End SchedulerProperties.

(** ** Sample runs *)

(** Continuous mode with the initial transition: 3 seconds after the start
    the blended temperature 5930 is set and the loop sleeps 100 ms; at 11
    seconds the ramp is over, the target 4600 is set and the loop sleeps
    5 s, and so it goes on, also when the clock is set back; the run ends
    when the clock cannot be read. *)
Lemma sample_run_temperatures :
  map (fun e => match e with
                | ev_adjust temp _ _ => temp
                | ev_usleep usec => usec
                | ev_exit status => status
                end)
      (sample_main (sample_config false true) sample_world 6)
  = [5930; 100000; 4600; 5000000; 4600; 5000000; 4600; 5000000; EXIT_FAILURE].
Proof. vm_compute. reflexivity. Qed.

Lemma sample_run_init_trans :
  map (sample_init_trans_at (sample_config false true) sample_world) (seq 0 6)
  = [Some true; Some true; Some false; Some false; Some false; None].
Proof. vm_compute. reflexivity. Qed.


Lemma adjust_failure_halts_witness :
  let cfg := sample_config false true in
  let ok := [call_randr_check_extension;
             call_randr_set_temperature (-1) 5930 gamma_default] in
  let failed := [call_randr_check_extension; call_vidmode_check_extension] in
  (one_shot cfg = false /\
   sample_main cfg failing_world 2
   = [ev_adjust 5930 ok 0; ev_usleep 100000]
     ++ ev_adjust 4600 failed (-1) :: [ev_exit EXIT_FAILURE] /\
   -1 < 0) /\
  [ev_exit EXIT_FAILURE] = [ev_exit EXIT_FAILURE] /\
  EXIT_FAILURE <> 0 /\
  (forall fuel',
      (2 <= fuel')%nat ->
      sample_main cfg failing_world fuel' = sample_main cfg failing_world 2).
Proof.
  split; [repeat split; vm_compute; reflexivity | ].
  apply (adjust_failure_halts true true twilight
           (sample_config false true) failing_world 2
           [ev_adjust 5930
              [call_randr_check_extension;
               call_randr_set_temperature (-1) 5930 gamma_default] 0;
            ev_usleep 100000]
           [ev_exit EXIT_FAILURE] 4600
           [call_randr_check_extension; call_vidmode_check_extension] (-1));
    [reflexivity | vm_compute; reflexivity | lia].
Defined.

Lemma sleep_interval_witness :
  let cfg := sample_config false true in
  (one_shot cfg = false /\
   ramp_end sample_world = Some (at_second 10) /\
   sample_init_trans_at cfg sample_world 1 = Some true /\
   sample_init_trans_at cfg sample_world 2 = Some false) /\
  (exists temp calls r,
      sample_events_at cfg sample_world 0
      = [ev_adjust temp calls r; ev_usleep 100000]) /\
  (exists temp calls r,
      sample_events_at cfg sample_world 1
      = [ev_adjust temp calls r; ev_usleep 5000000]).
Proof.
  split; [repeat split; vm_compute; reflexivity | ].
  split.
  - apply (sleep_interval true true twilight (sample_config false true)
             sample_world (at_second 10) 0 true);
      vm_compute; reflexivity.
  - apply (sleep_interval true true twilight (sample_config false true)
             sample_world (at_second 10) 1 false);
      vm_compute; reflexivity.
Defined.


(** C9 as the specification words it fails: in single-shot mode, when the
    clock cannot be read, the process ends without any call of
    [adjust_temperature]. *)
Lemma one_shot_clock_failure_counterexample :
  one_shot (sample_config true true) = true /\
  sample_main (sample_config true true) no_clock_world 0 = [ev_exit EXIT_FAILURE] /\
  count_adjust (sample_main (sample_config true true) no_clock_world 0) = 0%nat /\
  count_adjust (sample_main (sample_config true true) no_clock_world 0) <> 1%nat.
Proof. repeat split; try reflexivity. vm_compute. discriminate. Qed.

Lemma one_shot_single_adjust_witness :
  let cfg := sample_config true true in
  (one_shot cfg = true /\ clock_gettime sample_world 0 = Some (at_second 0)) /\
  exists calls r,
    sample_main cfg sample_world 0
    = [ev_adjust (target_temp twilight cfg (at_second 0)) calls r;
       ev_exit (if r <? 0 then EXIT_FAILURE else EXIT_SUCCESS)] /\
    count_adjust (sample_main cfg sample_world 0) = 1%nat.
Proof.
  split; [split; reflexivity | ].
  apply (one_shot_single_adjust true true twilight (sample_config true true)
           sample_world 0 eq_refl).
  reflexivity.
Defined.

Lemma one_shot_no_ramp_witness :
  let cfg := sample_config true true in
  (init_trans cfg = true /\ one_shot cfg = true /\
   In (ev_adjust 4600
         [call_randr_check_extension;
          call_randr_set_temperature (-1) 4600 gamma_default] 0)
      (sample_main cfg sample_world 0)) /\
  exists now,
    clock_gettime sample_world 0 = Some now /\
    4600 = calculate_temp (twilight now (lat cfg) (lon cfg))
             (temp_day cfg) (temp_night cfg).
Proof.
  split; [repeat split; try reflexivity; left; vm_compute; reflexivity | ].
  apply (one_shot_no_ramp true true twilight (sample_config true true)
           sample_world 0 4600
           [call_randr_check_extension;
            call_randr_set_temperature (-1) 4600 gamma_default] 0);
    [reflexivity | left; vm_compute; reflexivity].
Defined.

(** * More of the program *)

(** ** Rounding never gives a NaN *)

Lemma shr_1_nonneg :
  forall mrs : shr_record, 0 <= shr_m mrs -> 0 <= shr_m (shr_1 mrs).
Proof.
  intros [m r s] H. cbn in H.
  destruct m as [ | [p | p | ] | p]; cbn; lia.
Qed.

Lemma iter_shr_1_nonneg :
  forall (p : positive) (mrs : shr_record),
    0 <= shr_m mrs -> 0 <= shr_m (iter_pos shr_1 p mrs).
Proof.
  induction p as [p IH | p IH | ]; intros mrs H; cbn [iter_pos].
  - apply IH, IH, shr_1_nonneg, H.
  - apply IH, IH, H.
  - apply shr_1_nonneg, H.
Qed.

Lemma shr_fexp_nonneg :
  forall (prec emax m e : Z) (l : location),
    0 <= m -> 0 <= shr_m (fst (shr_fexp prec emax m e l)).
Proof.
  intros prec emax m e l H. unfold shr_fexp, shr.
  assert (H0 : 0 <= shr_m (shr_record_of_loc m l))
    by (destruct l as [ | [ | | ]]; exact H).
  destruct (fexp prec emax (Zdigits2 m + e) - e); cbn [fst];
    try exact H0.
  apply iter_shr_1_nonneg, H0.
Qed.

Lemma round_nearest_even_nonneg :
  forall (m : Z) (l : location), 0 <= m -> 0 <= round_nearest_even m l.
Proof.
  intros m l H. unfold round_nearest_even.
  destruct l as [ | [ | | ]]; try destruct (Z.even m); lia.
Qed.

Lemma binary_round_aux_not_nan :
  forall (prec emax : Z) (s : bool) (m e : Z) (l : location),
    0 <= m -> isnan (binary_round_aux prec emax s m e l) = false.
Proof.
  intros prec emax s m e l H. unfold binary_round_aux.
  pose proof (shr_fexp_nonneg prec emax m e l H) as H1.
  destruct (shr_fexp prec emax m e l) as [mrs' e']. cbn [fst] in H1.
  pose proof (shr_fexp_nonneg prec emax
                (round_nearest_even (shr_m mrs') (loc_of_shr_record mrs'))
                e' loc_Exact
                (round_nearest_even_nonneg _ _ H1)) as H2.
  destruct (shr_fexp prec emax
              (round_nearest_even (shr_m mrs') (loc_of_shr_record mrs'))
              e' loc_Exact) as [mrs'' e''].
  cbn [fst] in H2.
  destruct (shr_m mrs'') as [ | p | p]; try reflexivity; try lia.
  destruct (e'' <=? emax - prec); reflexivity.
Qed.

Lemma binary_round_not_nan :
  forall (prec emax : Z) (s : bool) (m : positive) (e : Z),
    isnan (binary_round prec emax s m e) = false.
Proof.
  intros prec emax s m e. unfold binary_round.
  destruct (shl_align m e (fexp prec emax (Z.pos (digits2_pos m) + e)))
    as [mz ez].
  apply binary_round_aux_not_nan. lia.
Qed.

(** The conversions between [float] and [double] keep a NaN a NaN and
    make none. *)
Lemma double_of_float_isnan :
  forall x : float, isnan (double_of_float x) = isnan x.
Proof.
  intros [s | s | | s m e]; try reflexivity.
  apply binary_round_not_nan.
Qed.

Lemma float_of_double_isnan :
  forall x : double, isnan (float_of_double x) = isnan x.
Proof.
  intros [s | s | | s m e]; try reflexivity.
  apply binary_round_not_nan.
Qed.

(** ** Comparisons *)

Lemma SFcompare_none :
  forall x y : spec_float,
    SFcompare x y = None -> isnan x = true \/ isnan y = true.
Proof.
  intros [sx | sx | | sx mx ex] [sy | sy | | sy my ey] H;
    try (left; reflexivity); try (right; reflexivity);
    try discriminate H.
Qed.

(** On numbers, [x < y] fails exactly when [y <= x] holds. *)
Lemma not_lt_le :
  forall x y : spec_float,
    isnan x = false -> isnan y = false ->
    lt x y = false -> le y x = true.
Proof.
  intros x y Hx Hy H. unfold lt, SFltb in H. unfold le, SFleb.
  rewrite (SFcompare_swap x y).
  destruct (SFcompare x y) as [[ | | ] | ] eqn:Hc;
    try discriminate H; try reflexivity.
  destruct (SFcompare_none x y Hc); congruence.
Qed.

Lemma le_not_nan :
  forall x y : spec_float,
    le x y = true -> isnan x = false /\ isnan y = false.
Proof.
  intros [sx | sx | | sx mx ex] [sy | sy | | sy my ey] H;
    try discriminate H; split; reflexivity.
Qed.

(** The bounds are numbers. *)
Lemma bounds_not_nan :
  isnan MIN_LAT = false /\ isnan MAX_LAT = false /\
  isnan MIN_LON = false /\ isnan MAX_LON = false /\
  isnan MIN_GAMMA = false /\ isnan MAX_GAMMA = false.
Proof. vm_compute. repeat split; reflexivity. Qed.

(** A value between two bounds, as the checks test it. *)
Lemma between_bounds :
  forall lo hi x : spec_float,
    isnan lo = false -> isnan hi = false -> isnan x = false ->
    (lt x lo || lt hi x = false <-> le lo x = true /\ le x hi = true).
Proof.
  intros lo hi x Hlo Hhi Hx. rewrite orb_false_iff. split.
  - intros [H1 H2]. split; apply not_lt_le; assumption.
  - intros [H1 H2]. split; apply le_not_lt; assumption.
Qed.

(** ** The checks of the parameters *)

Lemma bad_temp_valid :
  forall t : Z, bad_temp t = false <-> valid_temp t.
Proof.
  intros t. unfold bad_temp, valid_temp. rewrite orb_false_iff.
  rewrite Z.ltb_ge, Z.geb_leb, Z.leb_gt. lia.
Qed.

Lemma bad_gamma_channel_accepted :
  forall g : float, bad_gamma_channel g = false <-> gamma_accepted g.
Proof.
  intros g. unfold bad_gamma_channel, gamma_accepted.
  destruct bounds_not_nan as [_ [_ [_ [_ [Hmin Hmax]]]]].
  destruct (isnan g) eqn:Hg.
  - split; [intros _; left; reflexivity | intros _].
    destruct g; try discriminate Hg. reflexivity.
  - assert (Hd : isnan (double_of_float g) = false)
      by (rewrite double_of_float_isnan; exact Hg).
    rewrite (between_bounds MIN_GAMMA MAX_GAMMA _ Hmin Hmax Hd).
    split; [intros H; right; exact H | intros [H | H]; [discriminate | exact H]].
Qed.

Lemma bad_location_accepted :
  forall l : locals,
    bad_location l = false <->
    isnan (lat (vars l)) = false /\ isnan (lon (vars l)) = false /\
    le MIN_LAT (double_of_float (lat (vars l))) = true /\
    le (double_of_float (lat (vars l))) MAX_LAT = true /\
    le MIN_LON (double_of_float (lon (vars l))) = true /\
    le (double_of_float (lon (vars l))) MAX_LON = true.
Proof.
  intros l. unfold bad_location.
  destruct bounds_not_nan as [Hlat1 [Hlat2 [Hlon1 [Hlon2 _]]]].
  destruct (isnan (lat (vars l))) eqn:Hlat;
    [cbn; split; [discriminate | intros [H _]; discriminate] | ].
  destruct (isnan (lon (vars l))) eqn:Hlon;
    [cbn; split; [discriminate | intros [_ [H _]]; discriminate] | ].
  cbn [orb].
  assert (Hd1 : isnan (double_of_float (lat (vars l))) = false)
    by (rewrite double_of_float_isnan; exact Hlat).
  assert (Hd2 : isnan (double_of_float (lon (vars l))) = false)
    by (rewrite double_of_float_isnan; exact Hlon).
  pose proof (between_bounds MIN_LAT MAX_LAT _ Hlat1 Hlat2 Hd1) as B1.
  pose proof (between_bounds MIN_LON MAX_LON _ Hlon1 Hlon2 Hd2) as B2.
  rewrite orb_false_iff in B1, B2. rewrite !orb_false_iff. tauto.
Qed.

Lemma check_parameters_accepts :
  forall l : locals,
    check_parameters l = Continue l <-> parameters_accepted (vars l).
Proof.
  intros l. unfold check_parameters, parameters_accepted.
  pose proof (bad_location_accepted l) as BL.
  pose proof (bad_temp_valid (temp_day (vars l))) as BD.
  pose proof (bad_temp_valid (temp_night (vars l))) as BN.
  destruct (gamma (vars l)) as [[r g] b] eqn:Hg. cbn [fst snd].
  pose proof (bad_gamma_channel_accepted r) as GR.
  pose proof (bad_gamma_channel_accepted g) as GG.
  pose proof (bad_gamma_channel_accepted b) as GB.
  unfold bad_gamma.
  destruct (bad_location l);
    [split; [discriminate | intros H; destruct BL as [_ BL];
                            discriminate BL; tauto] | ].
  destruct (bad_temp (temp_day (vars l)));
    [split; [discriminate | intros H; destruct BD as [_ BD];
                            discriminate BD; tauto] | ].
  destruct (bad_temp (temp_night (vars l)));
    [split; [discriminate | intros H; destruct BN as [_ BN];
                            discriminate BN; tauto] | ].
  destruct (bad_gamma_channel r);
    [split; [discriminate | intros H; destruct GR as [_ GR];
                            discriminate GR; tauto] | ].
  destruct (bad_gamma_channel g);
    [split; [discriminate | intros H; destruct GG as [_ GG];
                            discriminate GG; tauto] | ].
  destruct (bad_gamma_channel b);
    [split; [discriminate | intros H; destruct GB as [_ GB];
                            discriminate GB; tauto] | ].
  cbn [orb]. split; [intros _ | reflexivity]. tauto.
Qed.

Lemma check_parameters_outcome :
  forall l : locals,
    check_parameters l = Continue l \/ check_parameters l = Exit EXIT_FAILURE.
Proof.
  intros l. unfold check_parameters.
  destruct (bad_location l); [right; reflexivity | ].
  destruct (bad_temp (temp_day (vars l))); [right; reflexivity | ].
  destruct (bad_temp (temp_night (vars l))); [right; reflexivity | ].
  destruct (bad_gamma (gamma (vars l))); [right | left]; reflexivity.
Qed.

(** ** More on [calculate_temp] and the ramp *)

(** X2.  An elevation that is not a number is taken for daytime:
    [calculate_temp] returns the day temperature, whatever the two
    temperatures are. *)
Theorem calculate_temp_nan :
  forall (e : double) (D N : Z),
    isnan e = true -> calculate_temp e D N = D.
Proof.
  intros e D N H. destruct e; try discriminate H. reflexivity.
Qed.

Lemma calculate_temp_nan_witness :
  isnan (ddiv (double_of_Z 0) (double_of_Z 0)) = true /\
  calculate_temp (ddiv (double_of_Z 0) (double_of_Z 0)) 5500 3700 = 5500.
Proof.
  split; [reflexivity | ].
  apply (calculate_temp_nan (ddiv (double_of_Z 0) (double_of_Z 0)) 5500 3700).
  reflexivity.
Defined.

Lemma ramp_start_checked : check_range ramp_start_check 0 10001 = true.
Proof. vm_compute. reflexivity. Qed.

Lemma ramp_end_checked : check_range ramp_end_check 0 10001 = true.
Proof. vm_compute. reflexivity. Qed.

(** X3.  The two ends of the startup ramp, for every target temperature
    from 0 to 10000: with [alpha = 1] (no time has passed) the blend is
    6500 whatever the target, and with [alpha = 0] (the 10 seconds are just
    over) it is the target itself. *)
Theorem ramp_temp_ends :
  forall temp : Z,
    0 <= temp <= 10000 ->
    ramp_temp (double_of_Z 1) temp = 6500 /\
    ramp_temp (double_of_Z 0) temp = temp.
Proof.
  intros temp H. split; apply Z.eqb_eq.
  - apply (check_range_sound _ _ _ ramp_start_checked temp). lia.
  - apply (check_range_sound _ _ _ ramp_end_checked temp). lia.
Qed.

Lemma ramp_temp_ends_witness :
  0 <= 4600 <= 10000 /\
  ramp_temp (double_of_Z 1) 4600 = 6500 /\
  ramp_temp (double_of_Z 0) 4600 = 4600.
Proof.
  split; [lia | ]. apply (ramp_temp_ends 4600). lia.
Defined.

(** ** More on [adjust_temperature] *)

Section BackendProperties.

Variables ENABLE_RANDR ENABLE_VIDMODE : bool.

Local Abbreviation Adjust_temperature :=
  (adjust_temperature ENABLE_RANDR ENABLE_VIDMODE).

(** With working backends the call succeeds. *)
Lemma adjust_temperature_works :
  forall (screen_num : Z) (use_randr : bool) (temp : Z) (gamma : gamma_t)
         (b : backend_reply),
    ~ randr_fails b -> ~ vidmode_fails b ->
    snd (Adjust_temperature screen_num use_randr temp gamma b) = 0.
Proof.
  intros screen_num use_randr temp gamma b Hr Hv.
  unfold randr_fails in Hr. unfold vidmode_fails in Hv.
  unfold adjust_temperature, randr_attempt, vidmode_attempt.
  destruct ENABLE_RANDR, ENABLE_VIDMODE, use_randr;
    destruct (Z.ltb_spec (randr_check_extension b) 0);
    destruct (Z.ltb_spec (randr_set_temperature b) 0);
    destruct (Z.ltb_spec (vidmode_check_extension b) 0);
    destruct (Z.ltb_spec (vidmode_set_temperature b) 0);
    cbn; try reflexivity; exfalso; tauto.
Qed.

(** A successful call has set the temperature last, when the backend
    selected is compiled in. *)
Lemma adjust_temperature_success :
  forall (screen_num : Z) (use_randr : bool) (temp : Z) (gamma : gamma_t)
         (b : backend_reply) (calls : list backend_call),
    (use_randr = true -> ENABLE_RANDR = true) ->
    (use_randr = false -> ENABLE_VIDMODE = true) ->
    Adjust_temperature screen_num use_randr temp gamma b = (calls, 0) ->
    exists init c,
      calls = init ++ [c] /\ sets_temperature screen_num temp gamma c.
Proof.
  intros screen_num use_randr temp gamma b calls H1 H2.
  unfold adjust_temperature, randr_attempt, vidmode_attempt, sets_temperature.
  destruct ENABLE_RANDR, ENABLE_VIDMODE, use_randr;
    try (discriminate (H1 eq_refl)); try (discriminate (H2 eq_refl));
    destruct (randr_check_extension b <? 0);
    destruct (randr_set_temperature b <? 0);
    destruct (vidmode_check_extension b <? 0);
    destruct (vidmode_set_temperature b <? 0);
    cbn; intros H; try discriminate H; injection H as <-;
    first
      [ exists [call_randr_check_extension]; eexists; split;
        [reflexivity | tauto]
      | exists [call_vidmode_check_extension]; eexists; split;
        [reflexivity | tauto]
      | exists [call_randr_check_extension; call_vidmode_check_extension];
        eexists; split; [reflexivity | tauto]
      | exists [call_randr_check_extension;
                call_randr_set_temperature screen_num temp gamma;
                call_vidmode_check_extension];
        eexists; split; [reflexivity | tauto] ].
Qed.

(** Every call that sets the temperature passes on the arguments of
    [adjust_temperature]. *)
Lemma adjust_temperature_arguments :
  forall (screen_num : Z) (use_randr : bool) (temp : Z) (gamma : gamma_t)
         (b : backend_reply) (c : backend_call),
    In c (fst (Adjust_temperature screen_num use_randr temp gamma b)) ->
    c = call_randr_check_extension \/ c = call_vidmode_check_extension \/
    sets_temperature screen_num temp gamma c.
Proof.
  intros screen_num use_randr temp gamma b c.
  unfold adjust_temperature, randr_attempt, vidmode_attempt, sets_temperature.
  destruct ENABLE_RANDR, ENABLE_VIDMODE, use_randr;
    destruct (randr_check_extension b <? 0);
    destruct (randr_set_temperature b <? 0);
    destruct (vidmode_check_extension b <? 0);
    destruct (vidmode_set_temperature b <? 0);
    cbn; intros H;
    repeat match type of H with
           | _ \/ _ => destruct H as [H | H]
           | False => contradiction
           end;
    subst c; tauto.
Qed.

(** X4.  The order and the limits of the backend calls of one
    [adjust_temperature]: the temperature is set with RANDR only when RANDR
    is compiled in and selected and its extension check has succeeded, and
    with VidMode only when VidMode is compiled in and its extension check
    has succeeded; when VidMode is selected no RANDR function is called;
    when RANDR is compiled in, selected and works, no VidMode function is
    called. *)
Theorem adjust_temperature_call_order :
  forall (screen_num : Z) (use_randr : bool) (temp : Z) (gamma : gamma_t)
         (b : backend_reply),
    let calls :=
      fst (Adjust_temperature screen_num use_randr temp gamma b) in
    (existsb is_randr_set calls = true ->
     ENABLE_RANDR = true /\ use_randr = true /\ 0 <= randr_check_extension b) /\
    (existsb is_vidmode_set calls = true ->
     ENABLE_VIDMODE = true /\ 0 <= vidmode_check_extension b) /\
    (use_randr = false -> existsb is_randr_call calls = false) /\
    (ENABLE_RANDR = true -> use_randr = true -> ~ randr_fails b ->
     existsb is_vidmode_call calls = false).
Proof.
  intros screen_num use_randr temp gamma b calls. subst calls.
  unfold adjust_temperature, randr_attempt, vidmode_attempt, randr_fails.
  destruct ENABLE_RANDR, ENABLE_VIDMODE, use_randr;
    destruct (Z.ltb_spec (randr_check_extension b) 0);
    destruct (Z.ltb_spec (randr_set_temperature b) 0);
    destruct (Z.ltb_spec (vidmode_check_extension b) 0);
    destruct (Z.ltb_spec (vidmode_set_temperature b) 0);
    cbn; repeat split; intros; try discriminate; try reflexivity;
    try lia; try (exfalso; tauto).
Qed.

(** X5.  When the backend selected is compiled in, a call of
    [adjust_temperature] that reports success has set the temperature in
    its last backend call, with the screen, the temperature and the gamma
    it was given; and every call that sets a temperature carries these
    arguments. *)
Theorem adjust_temperature_success_sets :
  forall (screen_num : Z) (use_randr : bool) (temp : Z) (gamma : gamma_t)
         (b : backend_reply) (calls : list backend_call),
    (use_randr = true -> ENABLE_RANDR = true) ->
    (use_randr = false -> ENABLE_VIDMODE = true) ->
    Adjust_temperature screen_num use_randr temp gamma b = (calls, 0) ->
    (exists init c,
        calls = init ++ [c] /\ sets_temperature screen_num temp gamma c) /\
    (forall c,
        In c calls ->
        is_randr_set c || is_vidmode_set c = true ->
        sets_temperature screen_num temp gamma c).
Proof.
  intros screen_num use_randr temp gamma b calls H1 H2 H. split.
  - apply (adjust_temperature_success _ _ _ _ _ _ H1 H2 H).
  - intros c Hc Hset.
    pose proof (adjust_temperature_arguments screen_num use_randr temp gamma b c)
      as Ha.
    rewrite H in Ha. destruct (Ha Hc) as [-> | [-> | Hs]];
      [discriminate Hset | discriminate Hset | exact Hs].
Qed.

End BackendProperties.

Lemma adjust_temperature_success_sets_witness :
  ((true = true -> true = true) /\ (true = false -> true = true) /\
   adjust_temperature true true (-1) true 4600 gamma_default
     reply_randr_set_fails
   = ([call_randr_check_extension;
       call_randr_set_temperature (-1) 4600 gamma_default;
       call_vidmode_check_extension;
       call_vidmode_set_temperature (-1) 4600 gamma_default], 0)) /\
  (exists init c,
      [call_randr_check_extension;
       call_randr_set_temperature (-1) 4600 gamma_default;
       call_vidmode_check_extension;
       call_vidmode_set_temperature (-1) 4600 gamma_default] = init ++ [c] /\
      sets_temperature (-1) 4600 gamma_default c).
Proof.
  split; [repeat split; reflexivity | ].
  apply (adjust_temperature_success_sets true true (-1) true 4600
           gamma_default reply_randr_set_fails _
           (fun _ => eq_refl) (fun _ => eq_refl) eq_refl).
Defined.

(** ** More on the scheduler *)

Lemma sleeps_app :
  forall tr1 tr2 : list event, sleeps (tr1 ++ tr2) = sleeps tr1 ++ sleeps tr2.
Proof.
  induction tr1 as [ | [temp calls r | usec | status] tr1 IH]; intros tr2;
    cbn; rewrite ?IH; reflexivity.
Qed.

Lemma count_adjust_app :
  forall tr1 tr2 : list event,
    count_adjust (tr1 ++ tr2) = (count_adjust tr1 + count_adjust tr2)%nat.
Proof.
  intros tr1 tr2. unfold count_adjust. rewrite filter_app, length_app.
  reflexivity.
Qed.

Section SchedulerRuns.

Variables ENABLE_RANDR ENABLE_VIDMODE : bool.
Variable solar_elevation : timespec -> float -> float -> double.
Variable cfg : config.
Variable w : world.

Local Abbreviation Adjust := (adjust ENABLE_RANDR ENABLE_VIDMODE cfg w).
Local Abbreviation Iteration :=
  (iteration ENABLE_RANDR ENABLE_VIDMODE solar_elevation cfg w).
Local Abbreviation Loop :=
  (loop ENABLE_RANDR ENABLE_VIDMODE solar_elevation cfg w).
Local Abbreviation Turn :=
  (turn ENABLE_RANDR ENABLE_VIDMODE solar_elevation cfg w).
Local Abbreviation Main :=
  (main ENABLE_RANDR ENABLE_VIDMODE solar_elevation cfg w).

(** The turns of the loop, one by one. *)
Ltac loop_turn ste k it :=
  let T := fresh "T" in
  let Hiter := fresh "Hiter" in
  pose proof (iteration_turn ENABLE_RANDR ENABLE_VIDMODE solar_elevation
                cfg w ste k it) as T;
  destruct (Iteration ste k it) as [?evs ?next] eqn:Hiter;
  cbn [fst snd] in *;
  inversion T as [?Hc | ?now ?it' ?temp ?calls ?r ?Hc ?Hi ?Ha ?Hr
                      | ?now ?it' ?temp ?calls ?r ?Hc ?Hi ?Ha ?Hr];
  subst.

(** Each call of [adjust_temperature] in a run is one of the program's, with
    the variables of [main]. *)
Lemma loop_adjust_event :
  forall (ste : timespec) (fuel k : nat) (it : bool) (temp : Z)
         (calls : list backend_call) (r : Z),
    In (ev_adjust temp calls r) (Loop ste fuel k it) ->
    exists k', Adjust temp k' = (calls, r).
Proof.
  intros ste fuel. induction fuel as [ | fuel IH];
    intros k it temp calls r H.
  - contradiction.
  - rewrite loop_step in H. loop_turn ste k it.
    + cbn in H. destruct H as [H | []]. discriminate.
    + cbn in H. destruct H as [H | [H | []]]; try discriminate.
      injection H as <- <- <-. eauto.
    + cbn in H. destruct H as [H | [H | H]]; try discriminate.
      * injection H as <- <- <-. eauto.
      * eapply IH. exact H.
Qed.

Lemma main_adjust_event :
  forall (fuel : nat) (temp : Z) (calls : list backend_call) (r : Z),
    In (ev_adjust temp calls r) (Main fuel) ->
    exists k, Adjust temp k = (calls, r).
Proof.
  intros fuel temp calls r H. unfold main in H.
  destruct (one_shot cfg).
  - unfold one_shot_mode in H.
    destruct (clock_gettime w 0) as [now | ].
    + destruct (Adjust (target_temp solar_elevation cfg now) 0%nat)
        as [calls' r'] eqn:Ha.
      destruct (r' <? 0); cbn in H; destruct H as [H | [H | []]];
        try discriminate; injection H as <- <- <-; eauto.
    + cbn in H. destruct H as [H | []]. discriminate.
  - unfold continuous_mode in H. destruct (ramp_end w) as [ste | ].
    + eapply loop_adjust_event. exact H.
    + cbn in H. destruct H as [H | []]. discriminate.
Qed.

(** X6.  Throughout a run, in either mode, every backend call that sets a
    temperature gets the screen number and the gamma of the command line,
    and the temperature the scheduler chose for that turn. *)
Theorem run_backend_arguments :
  forall (fuel : nat) (temp : Z) (calls : list backend_call) (r : Z)
         (c : backend_call),
    In (ev_adjust temp calls r) (Main fuel) ->
    In c calls ->
    c = call_randr_check_extension \/ c = call_vidmode_check_extension \/
    sets_temperature (screen_num cfg) temp (gamma cfg) c.
Proof.
  intros fuel temp calls r c H Hc.
  destruct (main_adjust_event fuel temp calls r H) as [k Hk].
  unfold adjust in Hk.
  pose proof (adjust_temperature_arguments ENABLE_RANDR ENABLE_VIDMODE
                (screen_num cfg) (use_randr cfg) temp (gamma cfg)
                (backend w k) c) as Ha.
  rewrite Hk in Ha. exact (Ha Hc).
Qed.

(** The loop ends only by a failure. *)
Lemma loop_exit :
  forall (ste : timespec) (fuel k : nat) (it : bool) (pre post : list event)
         (status : Z),
    Loop ste fuel k it = pre ++ ev_exit status :: post ->
    status = EXIT_FAILURE /\ post = [] /\
    (forall fuel', (fuel <= fuel')%nat -> Loop ste fuel' k it = Loop ste fuel k it).
Proof.
  intros ste fuel. induction fuel as [ | fuel IH];
    intros k it pre post status H.
  - destruct pre; discriminate.
  - rewrite loop_step in H. loop_turn ste k it.
    + destruct pre as [ | x [ | y pre]]; try discriminate.
      injection H as <- <-. repeat split.
      intros fuel' Hle. destruct fuel' as [ | fuel']; [lia | ].
      rewrite !loop_step, Hiter. reflexivity.
    + destruct pre as [ | x [ | y [ | z pre]]]; try discriminate.
      injection H as _ <- <-. repeat split.
      intros fuel' Hle. destruct fuel' as [ | fuel']; [lia | ].
      rewrite !loop_step, Hiter. reflexivity.
    + destruct pre as [ | x [ | y pre]]; try discriminate.
      cbn in H. injection H as _ _ H.
      destruct (IH (S k) it' pre post status H) as [Hs [Hpost Hstable]].
      repeat split; try assumption.
      intros fuel' Hle. destruct fuel' as [ | fuel']; [lia | ].
      rewrite !loop_step, Hiter. cbn [fst snd]. f_equal.
      apply Hstable. lia.
Qed.

(** X7.  Continuous mode never ends with success: if the process exits,
    it exits with failure status, the exit is the last thing it does, and
    watching the run longer shows nothing more. *)
Theorem continuous_exit_is_failure :
  forall (fuel : nat) (pre post : list event) (status : Z),
    one_shot cfg = false ->
    Main fuel = pre ++ ev_exit status :: post ->
    status = EXIT_FAILURE /\ post = [] /\
    (forall fuel', (fuel <= fuel')%nat -> Main fuel' = Main fuel).
Proof.
  intros fuel pre post status Hmode H.
  destruct (ramp_end w) as [ste | ] eqn:Hend.
  - rewrite (main_continuous _ _ _ _ _ ste fuel Hmode Hend) in H.
    destruct (loop_exit _ _ _ _ _ _ _ H) as [Hs [Hpost Hstable]].
    repeat split; try assumption.
    intros fuel' Hle.
    rewrite !(main_continuous _ _ _ _ _ ste _ Hmode Hend).
    apply Hstable. exact Hle.
  - unfold main, continuous_mode in *. rewrite Hmode, Hend in *.
    destruct pre as [ | x [ | y pre]]; try discriminate.
    injection H as <- <-. repeat split.
Qed.

(** While clock and backends work the loop goes on. *)
Lemma loop_keeps_going :
  forall (ste : timespec) (fuel k : nat) (it : bool),
    (forall j, (k <= j < k + fuel)%nat ->
       clock_gettime w (S j) <> None /\
       ~ randr_fails (backend w j) /\ ~ vidmode_fails (backend w j)) ->
    count_adjust (Loop ste fuel k it) = fuel /\
    List.length (sleeps (Loop ste fuel k it)) = fuel /\
    (forall status, ~ In (ev_exit status) (Loop ste fuel k it)).
Proof.
  intros ste fuel. induction fuel as [ | fuel IH]; intros k it H.
  - repeat split. intros status [].
  - destruct (H k ltac:(lia)) as [Hclock [Hrandr Hvid]].
    rewrite loop_step. loop_turn ste k it.
    + contradiction.
    + unfold adjust in Ha.
      pose proof (adjust_temperature_works ENABLE_RANDR ENABLE_VIDMODE
                    (screen_num cfg) (use_randr cfg) temp (gamma cfg)
                    (backend w k) Hrandr Hvid) as Hok.
      rewrite Ha in Hok. cbn in Hok. lia.
    + destruct (IH (S k) it') as [Hn [Hs Hx]].
      { intros j Hj. apply H. lia. }
      rewrite count_adjust_app, sleeps_app, length_app, Hn, Hs.
      repeat split.
      intros status Hin. cbn in Hin.
      destruct Hin as [Hin | [Hin | Hin]]; try discriminate.
      exact (Hx status Hin).
Qed.

(** X8.  Continuous mode goes on as long as the clock can be read and the
    backends work: watched for [fuel] turns, such a run has made exactly
    [fuel] calls of [adjust_temperature], has slept [fuel] times and has
    not exited. *)
Theorem continuous_keeps_going :
  forall fuel : nat,
    one_shot cfg = false ->
    clock_works w fuel ->
    backends_work w fuel ->
    count_adjust (Main fuel) = fuel /\
    List.length (sleeps (Main fuel)) = fuel /\
    (forall status, ~ In (ev_exit status) (Main fuel)).
Proof.
  intros fuel Hmode Hclock Hback.
  destruct (ramp_end w) as [ste | ] eqn:Hend.
  - rewrite (main_continuous _ _ _ _ _ ste fuel Hmode Hend).
    apply loop_keeps_going. intros j Hj. split.
    + apply Hclock. lia.
    + apply Hback. lia.
  - exfalso. unfold ramp_end in Hend.
    destruct (clock_gettime w 0) eqn:H0; [discriminate | ].
    apply (Hclock 0%nat); [lia | exact H0].
Qed.

(** With [init_trans] 0 every sleep lasts 5 seconds. *)
Lemma loop_steady_sleeps :
  forall (ste : timespec) (fuel k : nat),
    exists b, sleeps (Loop ste fuel k false) = repeat 5000000 b.
Proof.
  intros ste fuel. induction fuel as [ | fuel IH]; intros k.
  - exists 0%nat. reflexivity.
  - rewrite loop_step. loop_turn ste k false.
    + exists 0%nat. reflexivity.
    + exists 0%nat. reflexivity.
    + cbn in Hi. injection Hi as <- <-.
      destruct (IH (S k)) as [b Hb]. exists (S b).
      cbn. rewrite Hb. reflexivity.
Qed.

Lemma loop_sleeps :
  forall (ste : timespec) (fuel k : nat) (it : bool),
    exists a b,
      sleeps (Loop ste fuel k it) = repeat 100000 a ++ repeat 5000000 b.
Proof.
  intros ste fuel. induction fuel as [ | fuel IH]; intros k it.
  - exists 0%nat, 0%nat. reflexivity.
  - rewrite loop_step. loop_turn ste k it.
    + exists 0%nat, 0%nat. reflexivity.
    + exists 0%nat, 0%nat. reflexivity.
    + destruct it'.
      * destruct (IH (S k) true) as [a [b Hab]]. exists (S a), b.
        cbn. rewrite Hab. reflexivity.
      * destruct (loop_steady_sleeps ste fuel (S k)) as [b Hb].
        exists 0%nat, (S b). cbn. rewrite Hb. reflexivity.
Qed.

(** X9.  The sleeps of a run, in order, are a number of 100 ms sleeps
    followed by a number of 5 s sleeps and nothing else: once the loop has
    slept 5 s it never sleeps 100 ms again.  With the initial transition
    disabled, and in single-shot mode, there is no 100 ms sleep. *)
Theorem sleeps_ramp_then_steady :
  forall fuel : nat,
    exists a b,
      sleeps (Main fuel) = repeat 100000 a ++ repeat 5000000 b /\
      (init_trans cfg = false -> a = 0%nat) /\
      (one_shot cfg = true -> a = 0%nat /\ b = 0%nat).
Proof.
  intros fuel. unfold main. destruct (one_shot cfg) eqn:Hmode.
  - exists 0%nat, 0%nat. repeat split. unfold one_shot_mode.
    destruct (clock_gettime w 0) as [now | ]; [ | reflexivity].
    destruct (Adjust (target_temp solar_elevation cfg now) 0%nat)
      as [calls r].
    destruct (r <? 0); reflexivity.
  - unfold continuous_mode. destruct (ramp_end w) as [ste | ].
    + destruct (init_trans cfg) eqn:Hit.
      * destruct (loop_sleeps ste fuel 0 true) as [a [b Hab]].
        exists a, b. repeat split; try discriminate. exact Hab.
      * destruct (loop_steady_sleeps ste fuel 0) as [b Hb].
        exists 0%nat, b. repeat split; try discriminate. exact Hb.
    + exists 0%nat, 0%nat. repeat split; discriminate.
Qed.

End SchedulerRuns.

(** ** The command line *)

Section CommandLineProperties.

Import Ascii String.

Variables ENABLE_RANDR ENABLE_VIDMODE : bool.
Variable atof : String.string -> double.
Variable atoi : String.string -> Z.
Variable solar_elevation : timespec -> float -> float -> double.

Local Abbreviation Option_case :=
  (option_case ENABLE_RANDR ENABLE_VIDMODE atof atoi).
Local Abbreviation Parse :=
  (parse_arguments ENABLE_RANDR ENABLE_VIDMODE atof atoi).
Local Abbreviation Initial := (initial_locals ENABLE_RANDR).
Local Abbreviation Startup :=
  (startup ENABLE_RANDR ENABLE_VIDMODE atof atoi).
Local Abbreviation Refused := (refused ENABLE_RANDR ENABLE_VIDMODE).
Local Abbreviation Backend_compiled :=
  (backend_compiled ENABLE_RANDR ENABLE_VIDMODE).
Local Abbreviation Main_with_arguments :=
  (main_with_arguments ENABLE_RANDR ENABLE_VIDMODE atof atoi solar_elevation).

(** *** Splitting at the colon *)

Lemma split_colon_none :
  forall s : string, split_colon s = None <-> count_colons s = 0%nat.
Proof.
  induction s as [ | c s IH]; cbn.
  - tauto.
  - destruct (Ascii.eqb c ":"%char).
    + split; discriminate.
    + destruct (split_colon s) as [[a b] | ].
      * split; [discriminate | ]. intros H. apply IH in H. discriminate.
      * tauto.
Qed.

Lemma split_colon_some :
  forall s a b : string,
    split_colon s = Some (a, b) ->
    s = (a ++ ":" ++ b)%string /\ count_colons a = 0%nat /\
    count_colons s = S (count_colons b).
Proof.
  induction s as [ | c s IH]; intros a b H; cbn in H.
  - discriminate.
  - destruct (Ascii.eqb c ":"%char) eqn:Hc.
    + injection H as Ha Hb. subst a b. apply Ascii.eqb_eq in Hc. subst c.
      repeat split; reflexivity.
    + destruct (split_colon s) as [[a' b'] | ]; [ | discriminate].
      injection H as Ha Hb. subst a b.
      destruct (IH a' b' eq_refl) as [H1 [H2 H3]].
      repeat split; cbn; rewrite ?Hc.
      * f_equal. exact H1.
      * exact H2.
      * exact H3.
Qed.

Lemma split_colon_append :
  forall a b : string,
    count_colons a = 0%nat ->
    split_colon (a ++ ":" ++ b)%string = Some (a, b).
Proof.
  intros a b. change (":" ++ b)%string with (String ":"%char b).
  induction a as [ | c a IH]; intros H; cbn.
  - reflexivity.
  - cbn in H. destruct (Ascii.eqb c ":"%char); [discriminate | ].
    rewrite (IH H). reflexivity.
Qed.

(** X1.  Splitting an argument at its first colon, as [strchr] and the
    assignment of ['\0'] do it: a text with no colon in its first part
    splits into its two parts, what a split gives puts the argument
    together again, and there is no split exactly when there is no
    colon. *)
Theorem split_colon_round_trip :
  forall s a b : string,
    (count_colons a = 0%nat ->
     split_colon (a ++ ":" ++ b)%string = Some (a, b)) /\
    (split_colon s = Some (a, b) ->
     s = (a ++ ":" ++ b)%string /\ count_colons a = 0%nat) /\
    (split_colon s = None <-> count_colons s = 0%nat).
Proof.
  intros s a b. split; [apply split_colon_append | split].
  - intros H. destruct (split_colon_some s a b H) as [H1 [H2 _]].
    split; assumption.
  - apply split_colon_none.
Qed.

(** *** The loop over the options *)

Lemma parse_arguments_app :
  forall (o1 o2 : list (ascii * string)) (l : locals),
    Parse (o1 ++ o2)%list l =
    match Parse o1 l with
    | Exit status => Exit status
    | Continue l' => Parse o2 l'
    end.
Proof.
  induction o1 as [ | [opt optarg] o1 IH]; intros o2 l; cbn.
  - reflexivity.
  - destruct (Option_case opt optarg l) as [status | l']; [reflexivity | ].
    apply IH.
Qed.

(** Case analysis on the letter of an option. *)
Ltac option_letter opt :=
  unfold option_case;
  destruct (Ascii.eqb opt "g"%char) eqn:Eg;
  [ | destruct (Ascii.eqb opt "h"%char) eqn:Eh;
      [ | destruct (Ascii.eqb opt "l"%char) eqn:El;
          [ | destruct (Ascii.eqb opt "m"%char) eqn:Em;
              [ | destruct (Ascii.eqb opt "o"%char) eqn:Eo;
                  [ | destruct (Ascii.eqb opt "r"%char) eqn:Er;
                      [ | destruct (Ascii.eqb opt "s"%char) eqn:Es;
                          [ | destruct (Ascii.eqb opt "t"%char) eqn:Et;
                              [ | destruct (Ascii.eqb opt "v"%char) eqn:Ev
                              ] ] ] ] ] ] ] ].

Lemma option_given_cons :
  forall (c opt : ascii) (optarg : string) (opts : list (ascii * string)),
    option_given c ((opt, optarg) :: opts)
    = Ascii.eqb opt c || option_given c opts.
Proof. reflexivity. Qed.

(** Only [-h] ends the program with success. *)
Lemma option_case_success :
  forall (opt : ascii) (optarg : string) (l : locals),
    Option_case opt optarg l = Exit EXIT_SUCCESS ->
    Ascii.eqb opt "h"%char = true.
Proof.
  intros opt optarg l H. revert H. option_letter opt; intros H;
    try reflexivity;
    repeat match type of H with
           | context [split_colon ?s] => destruct (split_colon s) as [[? ?] | ]
           | context [if ?b then _ else _] => destruct b
           end;
    discriminate H.
Qed.

Lemma option_case_help :
  forall (opt : ascii) (optarg : string) (l : locals),
    Ascii.eqb opt "h"%char = true ->
    Option_case opt optarg l = Exit EXIT_SUCCESS.
Proof.
  intros opt optarg l H. apply Ascii.eqb_eq in H. subst opt. reflexivity.
Qed.

Lemma parse_arguments_success :
  forall (opts : list (ascii * string)) (l : locals),
    Parse opts l = Exit EXIT_SUCCESS -> option_given "h"%char opts = true.
Proof.
  induction opts as [ | [opt optarg] opts IH]; intros l H; cbn in H.
  - discriminate.
  - rewrite option_given_cons.
    destruct (Option_case opt optarg l) as [status | l'] eqn:Hc.
    + injection H as ->. rewrite (option_case_success _ _ _ Hc). reflexivity.
    + rewrite (IH l' H). apply orb_true_r.
Qed.

Lemma parse_arguments_help :
  forall (opts : list (ascii * string)) (l : locals),
    option_given "h"%char opts = true -> exists status, Parse opts l = Exit status.
Proof.
  induction opts as [ | [opt optarg] opts IH]; intros l H.
  - discriminate.
  - rewrite option_given_cons in H. cbn [parse_arguments].
    destruct (Ascii.eqb opt "h"%char) eqn:Hh.
    + rewrite (option_case_help _ optarg l Hh). eauto.
    + destruct (Option_case opt optarg l) as [status | l']; [eauto | ].
      apply IH. exact H.
Qed.

(** An option other than [-l] leaves the location as it is. *)
Lemma option_case_location :
  forall (opt : ascii) (optarg : string) (l l' : locals),
    Ascii.eqb opt "l"%char = false ->
    Option_case opt optarg l = Continue l' ->
    lat (vars l') = lat (vars l) /\ lon (vars l') = lon (vars l).
Proof.
  intros opt optarg l l' Hl H. revert H. option_letter opt; intros H;
    try congruence;
    repeat match type of H with
           | context [split_colon ?s] => destruct (split_colon s) as [[? ?] | ]
           | context [if ?b then _ else _] => destruct b
           end;
    try discriminate H; injection H as <-; split; reflexivity.
Qed.

Lemma parse_arguments_location :
  forall (opts : list (ascii * string)) (l l' : locals),
    option_given "l"%char opts = false ->
    Parse opts l = Continue l' ->
    lat (vars l') = lat (vars l) /\ lon (vars l') = lon (vars l).
Proof.
  induction opts as [ | [opt optarg] opts IH]; intros l l' Hl H; cbn in H.
  - injection H as <-. split; reflexivity.
  - rewrite option_given_cons in Hl.
    apply orb_false_iff in Hl. destruct Hl as [Hopt Hrest].
    destruct (Option_case opt optarg l) as [status | l1] eqn:Hc;
      [discriminate | ].
    destruct (option_case_location _ _ _ _ Hopt Hc) as [H1 H2].
    destruct (IH l1 l' Hrest H) as [H3 H4]. split; congruence.
Qed.

Lemma option_case_backend :
  forall (opt : ascii) (optarg : string) (l l' : locals),
    Backend_compiled (vars l) ->
    Option_case opt optarg l = Continue l' ->
    Backend_compiled (vars l').
Proof.
  intros opt optarg l l' Hinv H. revert H. option_letter opt; intros H;
    repeat match type of H with
           | context [split_colon ?s] => destruct (split_colon s) as [[? ?] | ]
           | context [if ?b then _ else _] => destruct b eqn:?
           end;
    try discriminate H; injection H as <-;
    try exact Hinv;
    split; cbn; intros; congruence.
Qed.

Lemma parse_arguments_backend :
  forall (opts : list (ascii * string)) (l l' : locals),
    Backend_compiled (vars l) -> Parse opts l = Continue l' -> Backend_compiled (vars l').
Proof.
  induction opts as [ | [opt optarg] opts IH]; intros l l' Hinv H; cbn in H.
  - injection H as <-. exact Hinv.
  - destruct (Option_case opt optarg l) as [status | l1] eqn:Hc;
      [discriminate | ].
    apply (IH l1 l' (option_case_backend _ _ _ _ Hinv Hc) H).
Qed.

(** A refused option ends the program with failure. *)
Lemma option_case_refused :
  forall (opt : ascii) (optarg : string) (l : locals),
    Refused opt optarg = true ->
    Option_case opt optarg l = Exit EXIT_FAILURE.
Proof.
  intros opt optarg l H. unfold refused, known_option, method_available in H.
  cbn [existsb] in H. revert H. option_letter opt;
    try match goal with
        | E : Ascii.eqb opt _ = true |- _ => apply Ascii.eqb_eq in E; subst opt
        end;
    cbn; rewrite ?andb_false_r, ?orb_false_r; cbn; intros H;
    try discriminate H; try reflexivity.
  - apply Nat.eqb_eq in H.
    destruct (split_colon optarg) as [[a b] | ] eqn:Hs.
    + destruct (split_colon_some _ _ _ Hs) as [_ [_ Hn]].
      assert (Hb : count_colons b = 0%nat) by lia.
      apply split_colon_none in Hb. rewrite Hb. reflexivity.
    + apply split_colon_none in Hs. lia.
  - apply Nat.eqb_eq, split_colon_none in H. rewrite H. reflexivity.
  - destruct ENABLE_RANDR, ENABLE_VIDMODE; cbn in H;
      destruct (String.eqb optarg "randr" || String.eqb optarg "RANDR");
      destruct (String.eqb optarg "vidmode" || String.eqb optarg "VidMode");
      try discriminate H; reflexivity.
  - apply Nat.eqb_eq, split_colon_none in H. rewrite H. reflexivity.
Qed.

Lemma option_case_status :
  forall (opt : ascii) (optarg : string) (l : locals) (status : Z),
    Option_case opt optarg l = Exit status ->
    status = EXIT_SUCCESS \/ status = EXIT_FAILURE.
Proof.
  intros opt optarg l status H. revert H. option_letter opt; intros H;
    repeat match type of H with
           | context [split_colon ?s] => destruct (split_colon s) as [[? ?] | ]
           | context [if ?b then _ else _] => destruct b
           end;
    try discriminate H; injection H as <-; tauto.
Qed.

Lemma parse_arguments_status :
  forall (opts : list (ascii * string)) (l : locals) (status : Z),
    Parse opts l = Exit status ->
    status = EXIT_SUCCESS \/ status = EXIT_FAILURE.
Proof.
  induction opts as [ | [opt optarg] opts IH]; intros l status H; cbn in H.
  - discriminate.
  - destruct (Option_case opt optarg l) as [status' | l'] eqn:Hc.
    + injection H as ->. apply (option_case_status _ _ _ _ Hc).
    + apply (IH l' status H).
Qed.

Lemma initial_backend_compiled :
  ENABLE_RANDR || ENABLE_VIDMODE = true -> Backend_compiled (vars Initial).
Proof.
  intros H. unfold backend_compiled. cbn.
  destruct ENABLE_RANDR, ENABLE_VIDMODE; try discriminate H; split; congruence.
Qed.

(** What [main] has established when it goes on to set the temperature. *)
Lemma startup_continue :
  forall (locale_ok : bool) (opts : list (ascii * string)) (l : locals),
    Startup locale_ok opts = Continue l ->
    locale_ok = true /\ Parse opts Initial = Continue l /\
    parameters_accepted (vars l).
Proof.
  intros locale_ok opts l H. unfold startup in H.
  destruct locale_ok; [ | discriminate H]. cbn [negb] in H.
  destruct (Parse opts Initial) as [status | l0]; [discriminate H | ].
  destruct (check_parameters_outcome l0) as [Hc | Hc]; rewrite Hc in H;
    [ | discriminate H].
  injection H as <-.
  split; [reflexivity | split; [reflexivity | ]].
  apply check_parameters_accepts. exact Hc.
Qed.

Lemma startup_exit :
  forall (locale_ok : bool) (opts : list (ascii * string)) (status : Z)
         (w : world) (fuel : nat),
    Startup locale_ok opts = Exit status ->
    Main_with_arguments locale_ok opts w fuel = [ev_exit status].
Proof.
  intros locale_ok opts status w fuel H. unfold main_with_arguments.
  rewrite H. reflexivity.
Qed.

(** X10.  The checks of the parameters let through exactly: a latitude
    and a longitude that are numbers, within [-90, 90] and [-180, 180], the
    bounds included; day and night temperatures from 1000 to 9999 (10000 is
    refused); and gamma values within [0.1, 10], or not a number.  Anything
    else ends the program with failure status. *)
Theorem check_parameters_exact :
  forall l : locals,
    (parameters_accepted (vars l) -> check_parameters l = Continue l) /\
    (~ parameters_accepted (vars l) ->
     check_parameters l = Exit EXIT_FAILURE) /\
    (temp_day (vars l) = 10000 -> check_parameters l = Exit EXIT_FAILURE).
Proof.
  intros l.
  assert (Hno : ~ parameters_accepted (vars l) ->
                check_parameters l = Exit EXIT_FAILURE).
  { intros Hn. destruct (check_parameters_outcome l) as [H | H];
      [ | exact H].
    exfalso. apply Hn, check_parameters_accepts, H. }
  split; [apply check_parameters_accepts | split; [exact Hno | ]].
  intros Ht. apply Hno. unfold parameters_accepted, valid_temp, MAX_TEMP.
  rewrite Ht. lia.
Qed.


(** X12.  With [-h] among the options the program sets no temperature
    and does not sleep: the run is a single exit. *)
Theorem help_makes_no_call :
  forall (locale_ok : bool) (opts : list (ascii * string)) (w : world)
         (fuel : nat),
    option_given "h"%char opts = true ->
    exists status,
      Main_with_arguments locale_ok opts w fuel = [ev_exit status].
Proof.
  intros locale_ok opts w fuel H.
  destruct (parse_arguments_help opts Initial H) as [status Hp].
  unfold main_with_arguments, startup.
  destruct locale_ok; cbn [negb]; [ | eauto].
  rewrite Hp. eauto.
Qed.

(** X13.  Latitude and longitude must be set: without [-l] among the
    options the program sets no temperature, the run is a single exit, and
    its status is failure unless [-h] was given. *)
Theorem location_required :
  forall (locale_ok : bool) (opts : list (ascii * string)) (w : world)
         (fuel : nat),
    option_given "l"%char opts = false ->
    exists status,
      Main_with_arguments locale_ok opts w fuel = [ev_exit status] /\
      (option_given "h"%char opts = false -> status = EXIT_FAILURE).
Proof.
  intros locale_ok opts w fuel H.
  unfold main_with_arguments, startup.
  destruct locale_ok; cbn [negb]; [ | exists EXIT_FAILURE; split; reflexivity].
  destruct (Parse opts Initial) as [status | l] eqn:Hp.
  - exists status. split; [reflexivity | ]. intros Hh.
    destruct (parse_arguments_status _ _ _ Hp) as [-> | ->];
      [ | reflexivity].
    rewrite (parse_arguments_success _ _ Hp) in Hh. discriminate Hh.
  - destruct (parse_arguments_location _ _ _ H Hp) as [Hlat _].
    exists EXIT_FAILURE. split; [ | reflexivity].
    unfold check_parameters, bad_location. rewrite Hlat. reflexivity.
Qed.

(** X14.  An option the program refuses ends it with failure status
    before any temperature is set, wherever it stands among options that
    are themselves in order: a letter that is no option, [-l] or [-t]
    without a colon in the argument, [-g] with exactly one colon, [-m] with
    anything but the name of a backend that is compiled in. *)
Theorem refused_option_exits :
  forall (pre post : list (ascii * string)) (opt : ascii) (optarg : string)
         (l : locals) (w : world) (fuel : nat),
    Parse pre Initial = Continue l ->
    Refused opt optarg = true ->
    Main_with_arguments true (pre ++ (opt, optarg) :: post)%list w fuel
    = [ev_exit EXIT_FAILURE].
Proof.
  intros pre post opt optarg l w fuel Hpre Href.
  unfold main_with_arguments, startup. cbn [negb].
  rewrite parse_arguments_app, Hpre. cbn [parse_arguments].
  rewrite (option_case_refused _ _ _ Href). reflexivity.
Qed.

(** X15.  No temperature is ever set, and the program never sleeps, with
    parameters outside their ranges: whenever a run does either, the locale
    was set, all options were taken, and the parameters passed the
    checks. *)
Theorem run_parameters_accepted :
  forall (locale_ok : bool) (opts : list (ascii * string)) (w : world)
         (fuel : nat) (e : event),
    In e (Main_with_arguments locale_ok opts w fuel) ->
    (forall status, e <> ev_exit status) ->
    locale_ok = true /\
    exists l,
      Parse opts Initial = Continue l /\ parameters_accepted (vars l) /\
      Main_with_arguments locale_ok opts w fuel
      = main ENABLE_RANDR ENABLE_VIDMODE solar_elevation (vars l) w fuel.
Proof.
  intros locale_ok opts w fuel e H Hne. unfold main_with_arguments in *.
  destruct (Startup locale_ok opts) as [status | l] eqn:Hs.
  - cbn in H. destruct H as [H | []]. exfalso. apply (Hne status).
    symmetry. exact H.
  - destruct (startup_continue _ _ _ Hs) as [Hl [Hp Ha]].
    split; [exact Hl | ]. exists l.
    split; [exact Hp | split; [exact Ha | reflexivity]].
Qed.

(** X16.  The backend [main] selects is one that is compiled in (at least
    one of them being compiled in, as the source demands): so, in a run of
    the whole program, every call of [adjust_temperature] that reports
    success has set the temperature in its last backend call, for the
    screen and with the gamma of the command line. *)
Theorem run_success_sets_temperature :
  forall (locale_ok : bool) (opts : list (ascii * string)) (w : world)
         (fuel : nat) (temp : Z) (calls : list backend_call),
    ENABLE_RANDR || ENABLE_VIDMODE = true ->
    In (ev_adjust temp calls 0) (Main_with_arguments locale_ok opts w fuel) ->
    exists l init c,
      Parse opts Initial = Continue l /\
      Backend_compiled (vars l) /\
      calls = (init ++ [c])%list /\
      sets_temperature (screen_num (vars l)) temp (gamma (vars l)) c.
Proof.
  intros locale_ok opts w fuel temp calls Hflags H.
  unfold main_with_arguments in H.
  destruct (Startup locale_ok opts) as [status | l] eqn:Hs.
  - cbn in H. destruct H as [H | []]. discriminate H.
  - destruct (startup_continue _ _ _ Hs) as [_ [Hp _]].
    pose proof (parse_arguments_backend _ _ _
                  (initial_backend_compiled Hflags) Hp) as Hb.
    destruct (main_adjust_event _ _ _ _ _ _ _ _ _ H) as [k Hk].
    unfold adjust in Hk. destruct Hb as [Hb1 Hb2].
    destruct (adjust_temperature_success _ _ _ _ _ _ _ _ Hb1 Hb2 Hk)
      as [init [c [Hcalls Hset]]].
    exists l, init, c.
    split; [exact Hp | split; [split; assumption | split; assumption]].
Qed.

(** *** Options and defaults *)

Lemma option_case_untouched :
  forall (opt : ascii) (optarg : string) (l l' : locals),
    Option_case opt optarg l = Continue l' ->
    untouched (Ascii.eqb opt) l l'.
Proof.
  intros opt optarg l l' H. revert H. unfold untouched. option_letter opt;
    try match goal with
        | E : Ascii.eqb opt _ = true |- _ => apply Ascii.eqb_eq in E; subst opt
        end;
    intros H;
    repeat match type of H with
           | context [split_colon ?s] => destruct (split_colon s) as [[? ?] | ]
           | context [if ?b then _ else _] => destruct b
           end;
    try discriminate H; injection H as <-; cbn;
    repeat split; intros; try discriminate; try reflexivity;
    try match goal with
        | H : _ \/ _ |- _ => destruct H; try discriminate; try assumption
        end;
    try congruence.
Qed.

Lemma parse_arguments_untouched :
  forall (opts : list (ascii * string)) (l l' : locals),
    Parse opts l = Continue l' ->
    untouched (fun c => option_given c opts) l l'.
Proof.
  induction opts as [ | [opt optarg] opts IH]; intros l l' H; cbn in H.
  - injection H as <-. unfold untouched, option_given. cbn.
    intuition discriminate.
  - destruct (Option_case opt optarg l) as [status | l1] eqn:Hc;
      [discriminate | ].
    pose proof (option_case_untouched _ _ _ _ Hc) as F1.
    pose proof (IH l1 l' H) as F2.
    unfold untouched in *. cbn beta in *.
    repeat rewrite option_given_cons.
    repeat rewrite orb_false_iff. repeat rewrite orb_true_iff.
    intuition congruence.
Qed.

(** X17.  What is not given on the command line keeps its default: after
    the options have been taken, the temperatures are 5500 and 3700 unless
    [-t] was given, the gamma is 1.0 for each channel unless [-g] was given,
    the backend is RANDR when it is compiled in unless [-m] was given, the
    screen is -1 unless [-s] was given, the mode is continuous with the
    initial transition unless [-o], respectively [-r], was given; and [-o]
    and [-r], once given, hold whatever options follow. *)
Theorem defaults_unless_given :
  forall (opts : list (ascii * string)) (l : locals),
    Parse opts Initial = Continue l ->
    (option_given "t"%char opts = false ->
     temp_day (vars l) = DEFAULT_DAY_TEMP /\
     temp_night (vars l) = DEFAULT_NIGHT_TEMP) /\
    (option_given "g"%char opts = false ->
     gamma (vars l) = (DEFAULT_GAMMA, DEFAULT_GAMMA, DEFAULT_GAMMA)) /\
    (option_given "m"%char opts = false ->
     use_randr (vars l) = ENABLE_RANDR) /\
    (option_given "s"%char opts = false -> screen_num (vars l) = -1) /\
    (one_shot (vars l) = option_given "o"%char opts) /\
    (init_trans (vars l) = negb (option_given "r"%char opts)).
Proof.
  intros opts l H.
  destruct (parse_arguments_untouched opts Initial l H)
    as [A1 [A2 [A3 [A4 [A5 [A6 [_ [A8 A9]]]]]]]].
  split; [exact A1 | split; [exact A2 | split; [exact A3
    | split; [exact A4 | split]]]].
  - destruct (option_given "o"%char opts) eqn:Ho.
    + apply A8. left. reflexivity.
    + apply (A6 eq_refl).
  - destruct (option_given "r"%char opts) eqn:Hr.
    + apply A9. left. reflexivity.
    + apply (A5 eq_refl).
Qed.

(** X18.  With [-o] anywhere among the options the whole program makes at
    most one call of [adjust_temperature], never sleeps, and ends with an
    exit. *)
Theorem one_shot_option :
  forall (locale_ok : bool) (opts : list (ascii * string)) (w : world)
         (fuel : nat),
    option_given "o"%char opts = true ->
    (count_adjust (Main_with_arguments locale_ok opts w fuel) <= 1)%nat /\
    sleeps (Main_with_arguments locale_ok opts w fuel) = [] /\
    exists pre status,
      Main_with_arguments locale_ok opts w fuel
      = (pre ++ [ev_exit status])%list.
Proof.
  intros locale_ok opts w fuel Ho. unfold main_with_arguments.
  destruct (Startup locale_ok opts) as [status | l] eqn:Hs.
  - repeat split; [cbn; lia | ]. exists [], status. reflexivity.
  - destruct (startup_continue _ _ _ Hs) as [_ [Hp _]].
    destruct (parse_arguments_untouched opts Initial l Hp)
      as [_ [_ [_ [_ [_ [_ [_ [A8 _]]]]]]]].
    unfold main. rewrite (A8 (or_introl Ho)). unfold one_shot_mode.
    destruct (clock_gettime w 0) as [now | ].
    + destruct (adjust ENABLE_RANDR ENABLE_VIDMODE (vars l) w
                  (target_temp solar_elevation (vars l) now) 0)
        as [calls r].
      destruct (r <? 0); repeat split; try (cbn; lia);
        eexists [_]; eexists; reflexivity.
    + repeat split; [cbn; lia | ]. exists [], EXIT_FAILURE. reflexivity.
Qed.

(** X19.  With [-r] anywhere among the options the startup ramp is off for
    the whole run: every sleep of the program lasts 5 seconds. *)
Theorem no_transition_option :
  forall (locale_ok : bool) (opts : list (ascii * string)) (w : world)
         (fuel : nat),
    option_given "r"%char opts = true ->
    exists b,
      sleeps (Main_with_arguments locale_ok opts w fuel) = repeat 5000000 b.
Proof.
  intros locale_ok opts w fuel Hr. unfold main_with_arguments.
  destruct (Startup locale_ok opts) as [status | l] eqn:Hs.
  - exists 0%nat. reflexivity.
  - destruct (startup_continue _ _ _ Hs) as [_ [Hp _]].
    destruct (parse_arguments_untouched opts Initial l Hp)
      as [_ [_ [_ [_ [_ [_ [_ [_ A9]]]]]]]].
    unfold main. destruct (one_shot (vars l)).
    + exists 0%nat. unfold one_shot_mode.
      destruct (clock_gettime w 0) as [now | ]; [ | reflexivity].
      destruct (adjust ENABLE_RANDR ENABLE_VIDMODE (vars l) w
                  (target_temp solar_elevation (vars l) now) 0)
        as [calls r].
      destruct (r <? 0); reflexivity.
    + unfold continuous_mode. destruct (ramp_end w) as [ste | ].
      * rewrite (A9 (or_introl Hr)). apply loop_steady_sleeps.
      * exists 0%nat. reflexivity.
Qed.

End CommandLineProperties.

(** ** Sample runs of the whole program *)

(** [-l 55.7:12.6] gives the variables of the sample configuration. *)
Lemma sample_parse_location :
  sample_parse options_location
  = Continue {| vars := sample_config false true; verbose := false |}.
Proof. vm_compute. reflexivity. Qed.

Lemma sample_main_first_turn :
  In (ev_adjust 5930
        [call_randr_check_extension;
         call_randr_set_temperature (-1) 5930 gamma_default] 0)
     (sample_main (sample_config false true) sample_world 1).
Proof.
  replace (sample_main (sample_config false true) sample_world 1)
    with [ev_adjust 5930
            [call_randr_check_extension;
             call_randr_set_temperature (-1) 5930 gamma_default] 0;
          ev_usleep 100000]
    by (vm_compute; reflexivity).
  left. reflexivity.
Qed.

Lemma run_backend_arguments_witness :
  let cfg := sample_config false true in
  let calls := [call_randr_check_extension;
                call_randr_set_temperature (-1) 5930 gamma_default] in
  (In (ev_adjust 5930 calls 0) (sample_main cfg sample_world 1) /\
   In (call_randr_set_temperature (-1) 5930 gamma_default) calls) /\
  (call_randr_set_temperature (-1) 5930 gamma_default
   = call_randr_check_extension \/
   call_randr_set_temperature (-1) 5930 gamma_default
   = call_vidmode_check_extension \/
   sets_temperature (screen_num cfg) 5930 (gamma cfg)
     (call_randr_set_temperature (-1) 5930 gamma_default)).
Proof.
  split.
  - split; [exact sample_main_first_turn | right; left; reflexivity].
  - exact (run_backend_arguments true true twilight (sample_config false true)
             sample_world 1 5930
             [call_randr_check_extension;
              call_randr_set_temperature (-1) 5930 gamma_default] 0
             (call_randr_set_temperature (-1) 5930 gamma_default)
             sample_main_first_turn
             (or_intror (or_introl eq_refl))).
Defined.

Lemma continuous_exit_is_failure_witness :
  let cfg := sample_config false true in
  let ok := [call_randr_check_extension;
             call_randr_set_temperature (-1) 5930 gamma_default] in
  let failed := [call_randr_check_extension; call_vidmode_check_extension] in
  (one_shot cfg = false /\
   sample_main cfg failing_world 2
   = [ev_adjust 5930 ok 0; ev_usleep 100000; ev_adjust 4600 failed (-1)]
     ++ ev_exit 1 :: []) /\
  1 = EXIT_FAILURE /\
  @nil event = [] /\
  (forall fuel',
      (2 <= fuel')%nat ->
      sample_main cfg failing_world fuel' = sample_main cfg failing_world 2).
Proof.
  split; [split; vm_compute; reflexivity | ].
  apply (continuous_exit_is_failure true true twilight
           (sample_config false true) failing_world 2
           [ev_adjust 5930
              [call_randr_check_extension;
               call_randr_set_temperature (-1) 5930 gamma_default] 0;
            ev_usleep 100000;
            ev_adjust 4600
              [call_randr_check_extension; call_vidmode_check_extension] (-1)]
           [] 1);
    [reflexivity | vm_compute; reflexivity].
Defined.

Lemma sample_clock_works : clock_works sample_world 4.
Proof.
  intros k Hk H.
  destruct k as [ | [ | [ | [ | [ | k]]]]]; try discriminate H. lia.
Qed.

Lemma sample_backends_work : forall n : nat, backends_work sample_world n.
Proof.
  intros n k _. unfold randr_fails, vidmode_fails. cbn. lia.
Qed.

Lemma continuous_keeps_going_witness :
  let cfg := sample_config false true in
  (one_shot cfg = false /\ clock_works sample_world 4 /\
   backends_work sample_world 4) /\
  count_adjust (sample_main cfg sample_world 4) = 4%nat /\
  length (sleeps (sample_main cfg sample_world 4)) = 4%nat /\
  (forall status, ~ In (ev_exit status) (sample_main cfg sample_world 4)).
Proof.
  split.
  - split; [reflexivity | ].
    split; [exact sample_clock_works | exact (sample_backends_work 4)].
  - apply (continuous_keeps_going true true twilight
             (sample_config false true) sample_world 4 eq_refl
             sample_clock_works (sample_backends_work 4)).
Defined.

Lemma help_makes_no_call_witness :
  option_given letter_h options_help = true /\
  exists status, sample_program options_help sample_world 3 = [ev_exit status].
Proof.
  split; [reflexivity | ].
  apply (help_makes_no_call true true sample_atof sample_atoi twilight true
           options_help sample_world 3).
  reflexivity.
Defined.

Lemma location_required_witness :
  option_given letter_l options_no_location = false /\
  exists status,
    sample_program options_no_location sample_world 3 = [ev_exit status] /\
    (option_given letter_h options_no_location = false -> status = EXIT_FAILURE).
Proof.
  split; [reflexivity | ].
  apply (location_required true true sample_atof sample_atoi twilight true
           options_no_location sample_world 3).
  reflexivity.
Defined.

Lemma refused_option_exits_witness :
  (sample_parse options_location
   = Continue {| vars := sample_config false true; verbose := false |} /\
   refused true true (fst option_gamma_two) (snd option_gamma_two) = true) /\
  sample_program (options_location ++ option_gamma_two :: options_one_shot)
    sample_world 3
  = [ev_exit EXIT_FAILURE].
Proof.
  split; [split; vm_compute; reflexivity | ].
  apply (refused_option_exits true true sample_atof sample_atoi twilight
           options_location options_one_shot
           (fst option_gamma_two) (snd option_gamma_two)
           {| vars := sample_config false true; verbose := false |}
           sample_world 3);
    vm_compute; reflexivity.
Defined.

Lemma sample_program_one_shot :
  sample_program options_one_shot sample_world 0
  = [ev_adjust 4600
       [call_randr_check_extension;
        call_randr_set_temperature (-1) 4600 gamma_default] 0;
     ev_exit EXIT_SUCCESS].
Proof. vm_compute. reflexivity. Qed.

Lemma sample_program_one_shot_adjust :
  In (ev_adjust 4600
        [call_randr_check_extension;
         call_randr_set_temperature (-1) 4600 gamma_default] 0)
     (sample_program options_one_shot sample_world 0).
Proof. rewrite sample_program_one_shot. left. reflexivity. Qed.

Lemma run_parameters_accepted_witness :
  let e := ev_adjust 4600
             [call_randr_check_extension;
              call_randr_set_temperature (-1) 4600 gamma_default] 0 in
  (In e (sample_program options_one_shot sample_world 0) /\
   (forall status, e <> ev_exit status)) /\
  true = true /\
  exists l,
    sample_parse options_one_shot = Continue l /\
    parameters_accepted (vars l) /\
    sample_program options_one_shot sample_world 0
    = main true true twilight (vars l) sample_world 0.
Proof.
  split.
  - split; [exact sample_program_one_shot_adjust
           | intros status; discriminate].
  - exact (run_parameters_accepted true true sample_atof sample_atoi twilight
             true options_one_shot sample_world 0
             (ev_adjust 4600
                [call_randr_check_extension;
                 call_randr_set_temperature (-1) 4600 gamma_default] 0)
             sample_program_one_shot_adjust
             (fun status H => eq_ind (ev_adjust 4600
                [call_randr_check_extension;
                 call_randr_set_temperature (-1) 4600 gamma_default] 0)
                (fun e => match e with ev_adjust _ _ _ => True | _ => False end)
                I (ev_exit status) H)).
Defined.

Lemma run_success_sets_temperature_witness :
  let calls := [call_randr_check_extension;
                call_randr_set_temperature (-1) 4600 gamma_default] in
  (true || true = true /\
   In (ev_adjust 4600 calls 0)
      (sample_program options_one_shot sample_world 0)) /\
  exists l init c,
    sample_parse options_one_shot = Continue l /\
    backend_compiled true true (vars l) /\
    calls = init ++ [c] /\
    sets_temperature (screen_num (vars l)) 4600 (gamma (vars l)) c.
Proof.
  split.
  - split; [reflexivity | exact sample_program_one_shot_adjust].
  - exact (run_success_sets_temperature true true sample_atof sample_atoi
             twilight true options_one_shot sample_world 0 4600
             [call_randr_check_extension;
              call_randr_set_temperature (-1) 4600 gamma_default]
             eq_refl sample_program_one_shot_adjust).
Defined.

Lemma defaults_unless_given_witness :
  sample_parse options_location
  = Continue {| vars := sample_config false true; verbose := false |} /\
  one_shot (sample_config false true) = option_given letter_o options_location.
Proof.
  split; [exact sample_parse_location | ].
  apply (defaults_unless_given true true sample_atof sample_atoi
           options_location
           {| vars := sample_config false true; verbose := false |}
           sample_parse_location).
Defined.

Lemma one_shot_option_witness :
  option_given letter_o options_one_shot = true /\
  (count_adjust (sample_program options_one_shot sample_world 3) <= 1)%nat /\
  sleeps (sample_program options_one_shot sample_world 3) = [] /\
  exists pre status,
    sample_program options_one_shot sample_world 3 = pre ++ [ev_exit status].
Proof.
  split; [reflexivity | ].
  exact (one_shot_option true true sample_atof sample_atoi twilight true
           options_one_shot sample_world 3 eq_refl).
Defined.

Lemma no_transition_option_witness :
  option_given letter_r options_no_transition = true /\
  exists b,
    sleeps (sample_program options_no_transition sample_world 3)
    = repeat 5000000 b.
Proof.
  split; [reflexivity | ].
  exact (no_transition_option true true sample_atof sample_atoi twilight true
           options_no_transition sample_world 3 eq_refl).
Defined.
